(** * content-publish-services: the Express routers over the hosted database

    A shallow embedding of the five routers of the service (users, content
    posts, announcements, registered emails, auth) and of the application that
    mounts them under [/v1].  Every handler is an [async] function that awaits
    the database client, [bcrypt] and the clock; it is embedded as a tree of
    such requests ([prog]), which [run] executes against a [backend].

    Layout: JavaScript values, effects and the [prog] monad, the handlers in
    source order, the routers and the application, backends and the
    interpreter, a reference model of the hosted database, then the lemmas
    and theorems. *)

From stdpp Require Import gmap strings list pretty.
From Stdlib Require Import ZArith Lia Ascii.

Set Warnings "-register-all".
#[local] Open Scope Z_scope.

(** ** JavaScript values

    What [express.json()] puts in [req.body] and what the database client
    returns.  Numbers are integers here: every number the handlers inspect
    (counts, lengths, millisecond timestamps) is one, and a fractional number
    behaves in them as any non-zero integer does (truthy, not a string, not an
    array). *)

Inductive json : Type :=
| JUndefined
| JNull
| JBool (b : bool)
| JNum (n : Z)
| JStr (s : string)
| JArr (l : list json)
| JObj (o : gmap string json).

(** [!v] is [negb (truthy v)]. *)
Definition truthy (v : json) : bool :=
  match v with
  | JUndefined | JNull => false
  | JBool b => b
  | JNum n => negb (n =? 0)
  | JStr s => negb (String.eqb s "")
  | JArr _ | JObj _ => true
  end.

(** [Array.isArray(v)]. *)
Definition isArray (v : json) : bool :=
  match v with JArr _ => true | _ => false end.

(** The own enumerable properties of a value: those of an object, the
    indices of an array.  The handlers read properties of the parsed body
    (an object or an array), of rows returned by the database and of the
    elements of a body array. *)
Definition own_props (v : json) : gmap string json :=
  match v with
  | JObj o => o
  | JArr l => list_to_map (imap (fun i x => (pretty i, x)) l)
  | _ => ∅
  end.

(** [v.k] and the destructuring [const { k } = v]. *)
Definition get (v : json) (k : string) : json :=
  default JUndefined (own_props v !! k).

(** [const { k1, ..., ...rest } = v]: the properties left in [rest]. *)
Definition rest (v : json) (ks : list string) : gmap string json :=
  foldr delete (own_props v) ks.

(** [v.length]. *)
Definition length_of (v : json) : json :=
  match v with
  | JArr l => JNum (Z.of_nat (length l))
  | JStr s => JNum (Z.of_nat (String.length s))
  | _ => get v "length"
  end.

(** [v.length === 0]. *)
Definition length_is_0 (v : json) : bool :=
  match length_of v with
  | JNum 0 => true
  | _ => false
  end.

(** ** Requests and responses *)

Record request : Type := {
  params : gmap string string;   (* req.params *)
  body : json                    (* req.body, as express.json() parsed it:
                                    an object or an array *)
}.

Record response : Type := {
  status : Z;
  payload : json
}.

(** [res.status(st).json(v)], and [res.json(v)] with the default status. *)
Definition send (st : Z) (v : json) : response :=
  {| status := st; payload := v |}.

Definition error_json (msg : string) : json := JObj {[ "error" := JStr msg ]}.

(** ** The awaited calls

    One constructor per shape of query the routers build on the client. *)

Inductive table : Type := users | content_posts | announcements | registered_emails.

Inductive dbcall : Type :=
| SelectAll (t : table)
    (* from(t).select('*') *)
| SelectEqSingle (t : table) (col : string) (v : json)
    (* from(t).select('*').eq(col, v).single() *)
| SelectCount (t : table)
    (* from(t).select('*', { count: 'exact', head: true }) *)
| InsertSelect (t : table) (rows : list json)
    (* from(t).insert(rows).select() *)
| UpdateEqSelect (t : table) (values : json) (col : string) (v : json)
    (* from(t).update(values).eq(col, v).select() *)
| DeleteEq (t : table) (col : string) (v : json)
    (* from(t).delete().eq(col, v) *)
| DeleteIn (t : table) (col : string) (vs : json).
    (* from(t).delete().in(col, vs) *)

(** The object the client resolves to; [error] holds [error.message] when
    the call failed, [count] is [null] unless a count was asked for. *)
Record dbreply : Type := {
  data : json;
  error : option string;
  count : option Z
}.

(** A handler either finishes with a value, throws (its promise rejects),
    or awaits a call and goes on with the answer. *)
Inductive prog (A : Type) : Type :=
| Ret (a : A)
| Throw (msg : string)
| Await_db (c : dbcall) (k : dbreply -> prog A)
| Await_hash (plain : json) (k : option string -> prog A)
    (* bcrypt.hash(plain, 10); [None]: the promise rejects *)
| Await_compare (plain hash : json) (k : option bool -> prog A)
    (* bcrypt.compare(plain, hash); [None]: the promise rejects *)
| Date_now (k : Z -> prog A)
    (* new Date(): the current time in milliseconds *)
| Date_of (v : json) (k : option Z -> prog A).
    (* new Date(v): its time value, [None] for an Invalid Date *)

Arguments Ret {A} a.
Arguments Throw {A} msg.
Arguments Await_db {A} c k.
Arguments Await_hash {A} plain k.
Arguments Await_compare {A} plain hash k.
Arguments Date_now {A} k.
Arguments Date_of {A} v k.

Fixpoint bind {A B : Type} (p : prog A) (f : A -> prog B) : prog B :=
  match p with
  | Ret a => f a
  | Throw m => Throw m
  | Await_db c k => Await_db c (fun r => bind (k r) f)
  | Await_hash d k => Await_hash d (fun r => bind (k r) f)
  | Await_compare d h k => Await_compare d h (fun r => bind (k r) f)
  | Date_now k => Date_now (fun r => bind (k r) f)
  | Date_of v k => Date_of v (fun r => bind (k r) f)
  end.

#[global] Instance prog_ret : MRet prog := @Ret.
#[global] Instance prog_bind : MBind prog := fun A B f p => bind p f.

(** [await supabase...]. *)
Definition supabase (c : dbcall) : prog dbreply := Await_db c Ret.

(** [await bcrypt.hash(plain, 10)]: a rejection is thrown at the [await]. *)
Definition bcrypt_hash (plain : json) : prog string :=
  Await_hash plain (fun r =>
    match r with
    | Some h => Ret h
    | None => Throw "bcrypt.hash rejected"
    end).

(** [await bcrypt.compare(plain, hash)]. *)
Definition bcrypt_compare (plain hash : json) : prog bool :=
  Await_compare plain hash (fun r =>
    match r with
    | Some b => Ret b
    | None => Throw "bcrypt.compare rejected"
    end).

(** A promise run to its settlement: the value it fulfils with or the error
    it rejects with. *)
Fixpoint settle {A : Type} (p : prog A) : prog (string + A) :=
  match p with
  | Ret a => Ret (inr a)
  | Throw m => Ret (inl m)
  | Await_db c k => Await_db c (fun r => settle (k r))
  | Await_hash d k => Await_hash d (fun r => settle (k r))
  | Await_compare d h k => Await_compare d h (fun r => settle (k r))
  | Date_now k => Date_now (fun r => settle (k r))
  | Date_of v k => Date_of v (fun r => settle (k r))
  end.

Fixpoint settle_all {A : Type} (ps : list (prog A)) : prog (list (string + A)) :=
  match ps with
  | [] => Ret []
  | p :: ps' => r ← settle p; rs ← settle_all ps'; Ret (r :: rs)
  end.

(** The first rejection among settled promises, or all their values. *)
Fixpoint collect {A : Type} (rs : list (string + A)) : string + list A :=
  match rs with
  | [] => inr []
  | inl m :: _ => inl m
  | inr a :: rs' =>
      match collect rs' with
      | inl m => inl m
      | inr l => inr (a :: l)
      end
  end.

(** [await Promise.all(ps)]: every promise of the array has been started, so
    all of them run; the result is the array of values, or a rejection when
    one of them rejected (of the rejections the one first in array order is
    reported here; which one it is changes nothing for the handler, whose
    promise rejects). *)
Definition Promise_all {A : Type} (ps : list (prog A)) : prog (list A) :=
  rs ← settle_all ps;
  match collect rs with
  | inl m => Throw m
  | inr l => Ret l
  end.

(** [(count || 0)]. *)
Definition count_or_0 (r : dbreply) : Z :=
  match count r with
  | Some n => n
  | None => 0
  end.

(** [req.params.id], a string taken from the URL. *)
Definition param_id (req : request) : json :=
  match params req !! "id" with
  | Some s => JStr s
  | None => JUndefined
  end.

(** The tail shared by the handlers: [if (error) return
    res.status(st).json({ error: error.message }); res.status(ok).json(data)]. *)
Definition reply_or (st ok : Z) (r : dbreply) : prog response :=
  match error r with
  | Some m => Ret (send st (error_json m))
  | None => Ret (send ok (data r))
  end.

(** [arr.map(f)] for a callback that consults the runtime: the elements are
    processed in order. *)
Fixpoint map_prog {A B : Type} (f : A -> prog B) (l : list A) : prog (list B) :=
  match l with
  | [] => Ret []
  | x :: l' => y ← f x; ys ← map_prog f l'; Ret (y :: ys)
  end.

(** ** user-service *)

(* router.get('/get-all-users') *)
Definition get_all_users (req : request) : prog response :=
  r ← supabase (SelectAll users);
  reply_or 500 200 r.

(* router.get('/get-user/:id') *)
Definition get_user (req : request) : prog response :=
  let id := param_id req in
  r ← supabase (SelectEqSingle users "id" id);
  reply_or 404 200 r.

(* router.post('/create-user'): total users cannot exceed 10 *)
Definition create_user (req : request) : prog response :=
  let password := get (body req) "password" in
  let rest_ := rest (body req) ["password"] in
  if negb (truthy password) then
    Ret (send 400 (error_json "Password is required."))
  else
    hashedPassword ← bcrypt_hash password;
    c ← supabase (SelectCount users);
    match error c with
    | Some m => Ret (send 500 (error_json m))
    | None =>
        if count_or_0 c + 1 >? 10 then
          Ret (send 400 (error_json "Total users cannot exceed 10."))
        else
          r ← supabase (InsertSelect users
                 [JObj (<["password" := JStr hashedPassword]> rest_)]);
          reply_or 400 201 r
    end.

(** The callback of [users.map] in create-users.  Reading [user.password]
    of a [null] element is a TypeError. *)
Definition hash_user (user : json) : prog json :=
  match user with
  | JNull | JUndefined => Throw "TypeError: cannot read properties of null"
  | _ =>
      if negb (truthy (get user "password")) then
        Throw "Password is required for all users."
      else
        hashedPassword ← bcrypt_hash (get user "password");
        Ret (JObj (<["password" := JStr hashedPassword]> (rest user ["password"])))
  end.

(* router.post('/create-users'): total users cannot exceed 10 *)
Definition create_users (req : request) : prog response :=
  match body req with
  | JArr us =>
      usersWithHashedPasswords ← Promise_all (map hash_user us);
      c ← supabase (SelectCount users);
      match error c with
      | Some m => Ret (send 500 (error_json m))
      | None =>
          if count_or_0 c + Z.of_nat (length us) >? 10 then
            Ret (send 400 (error_json "Total users cannot exceed 10."))
          else
            r ← supabase (InsertSelect users usersWithHashedPasswords);
            reply_or 400 201 r
      end
  | _ => Ret (send 400 (error_json "Request body must be an array of users."))
  end.

(* router.put('/update-user'): hash password if provided *)
Definition update_user (req : request) : prog response :=
  let id := get (body req) "id" in
  let updateData := rest (body req) ["id"] in
  if negb (truthy id) then
    Ret (send 400 (error_json "User ID is required in the request body."))
  else
    updateData' ←
      (if truthy (get (JObj updateData) "password") then
         h ← bcrypt_hash (get (JObj updateData) "password");
         Ret (<["password" := JStr h]> updateData)
       else Ret updateData);
    r ← supabase (UpdateEqSelect users (JObj updateData') "id" id);
    reply_or 400 200 r.

(* router.delete('/delete-user/:id') *)
Definition delete_user (req : request) : prog response :=
  let id := param_id req in
  r ← supabase (DeleteEq users "id" id);
  reply_or 400 200 r.

(* router.delete('/delete-users') *)
Definition delete_users (req : request) : prog response :=
  let ids := get (body req) "ids" in
  r ← supabase (DeleteIn users "id" ids);
  reply_or 400 200 r.

(** ** login-service *)

(* router.post('/login') *)
Definition login (req : request) : prog response :=
  let email := get (body req) "email" in
  let password := get (body req) "password" in
  if negb (truthy email) || negb (truthy password) then
    Ret (send 400 (error_json "Email and password are required."))
  else
    r ← supabase (SelectEqSingle users "email" email);
    let user := data r in
    if bool_decide (is_Some (error r)) || negb (truthy user) then
      Ret (send 401 (error_json "Invalid email or password."))
    else
      valid ← bcrypt_compare password (get user "password");
      if negb valid then
        Ret (send 401 (error_json "Invalid email or password."))
      else
        let userData : gmap string json :=
          <["id" := get user "id"]>
          (<["email" := get user "email"]>
          (<["first_name" := get user "first_name"]>
          (<["middle_name" := get user "middle_name"]>
          (<["last_name" := get user "last_name"]>
          (<["suffix" := get user "suffix"]> ∅))))) in
        Ret (send 200 (JObj (<["message" := JStr "Login successful"]>
                            (<["userData" := JObj userData]> ∅)))).

(** ** announcement-service *)

(** [Math.floor((now - createdAt) / (1000 * 60 * 60 * 24))]; the difference
    with an Invalid Date is [NaN] ([None]).  Both times are whole numbers of
    milliseconds, and at the sizes a [Date] holds the floating-point quotient
    has the same floor as the exact one around the threshold. *)
Definition diffDays (now : Z) (createdAt : option Z) : option Z :=
  match createdAt with
  | Some c => Some ((now - c) `div` (1000 * 60 * 60 * 24))
  | None => None
  end.

(** [diffDays > 15 ? 'true' : 'false']; [NaN > 15] is false. *)
Definition expired (now : Z) (createdAt : option Z) : string :=
  match diffDays now createdAt with
  | Some d => if d >? 15 then "true" else "false"
  | None => "false"
  end.

(** The callback of [data.map] in get-all-announcements. *)
Definition process_item (now : Z) (item : json) : prog json :=
  createdAt ← Date_of (get item "created_at") Ret;
  Ret (JObj (<["expired" := JStr (expired now createdAt)]> (own_props item))).

(* router.get('/get-all-announcements') *)
Definition get_all_announcements (req : request) : prog response :=
  r ← supabase (SelectAll announcements);
  match error r with
  | Some m => Ret (send 500 (error_json m))
  | None =>
      now ← Date_now Ret;
      match data r with
      | JArr items =>
          processed ← map_prog (process_item now) items;
          Ret (send 200 (JArr processed))
      | _ => Throw "TypeError: data.map is not a function"
      end
  end.

(* router.get('/get-announcement/:id') *)
Definition get_announcement (req : request) : prog response :=
  let id := param_id req in
  r ← supabase (SelectEqSingle announcements "id" id);
  reply_or 404 200 r.

(* router.post('/create-announcement') *)
Definition create_announcement (req : request) : prog response :=
  let newItem := body req in
  c ← supabase (SelectCount announcements);
  match error c with
  | Some m => Ret (send 500 (error_json m))
  | None =>
      if count_or_0 c + 1 >? 5 then
        Ret (send 400 (error_json "Total announcements already reached its limit."))
      else
        r ← supabase (InsertSelect announcements [newItem]);
        reply_or 400 201 r
  end.

(* router.put('/update-announcement') *)
Definition update_announcement (req : request) : prog response :=
  let id := get (body req) "id" in
  let updates := rest (body req) ["id"] in
  if negb (truthy id) then
    Ret (send 400 (error_json "Announcement ID is required in the request body."))
  else
    r ← supabase (UpdateEqSelect announcements (JObj updates) "id" id);
    reply_or 400 200 r.

(* router.delete('/delete-announcement/:id') *)
Definition delete_announcement (req : request) : prog response :=
  let id := param_id req in
  r ← supabase (DeleteEq announcements "id" id);
  reply_or 400 200 r.

(* router.delete('/delete-announcements/') *)
Definition delete_announcements (req : request) : prog response :=
  let ids := get (body req) "ids" in
  if negb (isArray ids) || length_is_0 ids then
    Ret (send 400 (error_json "Request body must include an array of ids."))
  else
    r ← supabase (DeleteIn announcements "id" ids);
    reply_or 400 200 r.

(** ** regisetered-email-service *)

(* router.get('/get-all-registered-emails') *)
Definition get_all_registered_emails (req : request) : prog response :=
  r ← supabase (SelectAll registered_emails);
  reply_or 500 200 r.

(* router.get('/get-registered-email/:id') *)
Definition get_registered_email (req : request) : prog response :=
  let id := param_id req in
  r ← supabase (SelectEqSingle registered_emails "id" id);
  reply_or 404 200 r.

(* router.post('/register') *)
Definition register (req : request) : prog response :=
  let email := get (body req) "email" in
  if negb (truthy email) then
    Ret (send 400 (error_json "Email is required"))
  else
    c ← supabase (SelectCount registered_emails);
    match error c with
    | Some m => Ret (send 500 (error_json m))
    | None =>
        if count_or_0 c + 1 >? 60 then
          Ret (send 400 (error_json "Total registered emails already reached its limit."))
        else
          r ← supabase (InsertSelect registered_emails [JObj {[ "email" := email ]}]);
          reply_or 400 201 r
    end.

(* router.delete('/delete-email/:id') *)
Definition delete_email (req : request) : prog response :=
  let id := param_id req in
  r ← supabase (DeleteEq registered_emails "id" id);
  reply_or 400 200 r.

(* router.delete('/delete-emails') *)
Definition delete_emails (req : request) : prog response :=
  let ids := get (body req) "ids" in
  if negb (isArray ids) then
    Ret (send 400 (error_json "Body must be { ids: [...] }"))
  else
    r ← supabase (DeleteIn registered_emails "id" ids);
    reply_or 400 200 r.

(** ** content-service *)

(* router.get('/get-all-contents') *)
Definition get_all_contents (req : request) : prog response :=
  r ← supabase (SelectAll content_posts);
  reply_or 500 200 r.

(* router.get('get-content/:id') *)
Definition get_content (req : request) : prog response :=
  let id := param_id req in
  r ← supabase (SelectEqSingle content_posts "id" id);
  reply_or 404 200 r.

(* router.post('/create-post') *)
Definition create_post (req : request) : prog response :=
  let newItem := body req in
  c ← supabase (SelectCount content_posts);
  match error c with
  | Some m => Ret (send 500 (error_json m))
  | None =>
      if count_or_0 c + 1 >? 5 then
        Ret (send 400 (error_json "Total content posts already reached its limit."))
      else
        r ← supabase (InsertSelect content_posts [newItem]);
        reply_or 400 201 r
  end.

(* router.put('/update-post') *)
Definition update_post (req : request) : prog response :=
  let id := get (body req) "id" in
  let updates := rest (body req) ["id"] in
  if negb (truthy id) then
    Ret (send 400 (error_json "Content post ID is required in the request body."))
  else
    r ← supabase (UpdateEqSelect content_posts (JObj updates) "id" id);
    reply_or 400 200 r.

(* router.delete('/delete-post/:id') *)
Definition delete_post (req : request) : prog response :=
  let id := param_id req in
  r ← supabase (DeleteEq content_posts "id" id);
  reply_or 400 200 r.

(* router.delete('/delete-posts') *)
Definition delete_posts (req : request) : prog response :=
  let ids := get (body req) "ids" in
  if negb (isArray ids) || length_is_0 ids then
    Ret (send 400 (error_json "Request body must include an array of ids."))
  else
    r ← supabase (DeleteIn content_posts "id" ids);
    reply_or 400 200 r.

(** ** The routers and the application *)

Inductive http_method : Type := GET | POST | PUT | DELETE.

(** What a route does, as its comment and summary in the source name it. *)
Inductive operation : Type :=
| get_all | get_by_id | create_one | create_many
| update_by_id | delete_by_id | bulk_delete | login_check.

Record route : Type := {
  method : http_method;
  path : string;
  operation_of : operation;
  handler : request -> prog response
}.

Definition userRouter : list route := [
  {| method := GET;    path := "/get-all-users";   operation_of := get_all;      handler := get_all_users |};
  {| method := GET;    path := "/get-user/:id";    operation_of := get_by_id;    handler := get_user |};
  {| method := POST;   path := "/create-user";     operation_of := create_one;   handler := create_user |};
  {| method := POST;   path := "/create-users";    operation_of := create_many;  handler := create_users |};
  {| method := PUT;    path := "/update-user";     operation_of := update_by_id; handler := update_user |};
  {| method := DELETE; path := "/delete-user/:id"; operation_of := delete_by_id; handler := delete_user |};
  {| method := DELETE; path := "/delete-users";    operation_of := bulk_delete;  handler := delete_users |}
].

Definition authRouter : list route := [
  {| method := POST; path := "/login"; operation_of := login_check; handler := login |}
].

Definition announcementRouter : list route := [
  {| method := GET;    path := "/get-all-announcements";   operation_of := get_all;      handler := get_all_announcements |};
  {| method := GET;    path := "/get-announcement/:id";    operation_of := get_by_id;    handler := get_announcement |};
  {| method := POST;   path := "/create-announcement";     operation_of := create_one;   handler := create_announcement |};
  {| method := PUT;    path := "/update-announcement";     operation_of := update_by_id; handler := update_announcement |};
  {| method := DELETE; path := "/delete-announcement/:id"; operation_of := delete_by_id; handler := delete_announcement |};
  {| method := DELETE; path := "/delete-announcements/";   operation_of := bulk_delete;  handler := delete_announcements |}
].

Definition registeredEmailRouter : list route := [
  {| method := GET;    path := "/get-all-registered-emails"; operation_of := get_all;      handler := get_all_registered_emails |};
  {| method := GET;    path := "/get-registered-email/:id";  operation_of := get_by_id;    handler := get_registered_email |};
  {| method := POST;   path := "/register";                  operation_of := create_one;   handler := register |};
  {| method := DELETE; path := "/delete-email/:id";          operation_of := delete_by_id; handler := delete_email |};
  {| method := DELETE; path := "/delete-emails";             operation_of := bulk_delete;  handler := delete_emails |}
].

Definition contentRouter : list route := [
  {| method := GET;    path := "/get-all-contents"; operation_of := get_all;      handler := get_all_contents |};
  {| method := GET;    path := "get-content/:id";   operation_of := get_by_id;    handler := get_content |};
  {| method := POST;   path := "/create-post";      operation_of := create_one;   handler := create_post |};
  {| method := PUT;    path := "/update-post";      operation_of := update_by_id; handler := update_post |};
  {| method := DELETE; path := "/delete-post/:id";  operation_of := delete_by_id; handler := delete_post |};
  {| method := DELETE; path := "/delete-posts";     operation_of := bulk_delete;  handler := delete_posts |}
].

(** The resource groups, one per mounted router. *)
Inductive group : Type :=
| users_group | content_group | announcements_group | registered_emails_group | auth_group.

Definition router_of (g : group) : list route :=
  match g with
  | users_group => userRouter
  | content_group => contentRouter
  | announcements_group => announcementRouter
  | registered_emails_group => registeredEmailRouter
  | auth_group => authRouter
  end.

(** [app.use(prefix, router)], in the order of the source. *)
Definition app : list (string * group) := [
  ("/v1/users", users_group);
  ("/v1/content", content_group);
  ("/v1/announcements", announcements_group);
  ("/v1/registered-emails", registered_emails_group);
  ("/v1/auth", auth_group)
].

(** *** Path matching

    Express matches a route segment by segment: a literal segment matches
    itself, [:name] matches one non-empty segment, and one trailing slash is
    optional.  The path a router sees is what follows the mount prefix and
    starts with a slash. *)

Fixpoint segments (s : string) : list string :=
  match s with
  | EmptyString => [EmptyString]
  | String c s' =>
      if Ascii.eqb c "/"%char then EmptyString :: segments s'
      else match segments s' with
           | seg :: more => String c seg :: more
           | [] => [String c EmptyString]
           end
  end.

(** Drop the empty segment a trailing slash leaves. *)
Fixpoint drop_trailing (l : list string) : list string :=
  match l with
  | [] => []
  | x :: l' =>
      match l' with
      | [] | [EmptyString] => [x]
      | _ => x :: drop_trailing l'
      end
  end.

Definition is_param (seg : string) : bool :=
  match seg with
  | String c _ => Ascii.eqb c ":"%char
  | EmptyString => false
  end.

Fixpoint match_segments (pat url : list string) : bool :=
  match pat, url with
  | [], [] => true
  | p :: pat', u :: url' =>
      (if is_param p then negb (String.eqb u "") else String.eqb p u)
      && match_segments pat' url'
  | _, _ => false
  end.

Definition method_eqb (a b : http_method) : bool :=
  match a, b with
  | GET, GET | POST, POST | PUT, PUT | DELETE, DELETE => true
  | _, _ => false
  end.

(** The first route of a router that takes the request. *)
Definition route_in (rs : list route) (m : http_method) (sub : list string) : option route :=
  List.find (fun r => method_eqb (method r) m
                      && match_segments (drop_trailing (segments (path r))) sub) rs.

(** The part of the URL after a mount prefix, as the router sees it. *)
Fixpoint strip_prefix (pre url : list string) : option (list string) :=
  match pre, url with
  | [], _ => Some (EmptyString :: url)
  | p :: pre', u :: url' => if String.eqb p u then strip_prefix pre' url' else None
  | _ :: _, [] => None
  end.

Fixpoint dispatch_mounts (mounts : list (string * group)) (m : http_method)
    (url : list string) : option (group * route) :=
  match mounts with
  | [] => None
  | (pre, g) :: mounts' =>
      match strip_prefix (segments pre) url with
      | Some sub =>
          match route_in (router_of g) m sub with
          | Some r => Some (g, r)
          | None => dispatch_mounts mounts' m url
          end
      | None => dispatch_mounts mounts' m url
      end
  end.

(** The route that serves [m url], if any. *)
Definition dispatch (m : http_method) (url : string) : option (group * route) :=
  dispatch_mounts app m (drop_trailing (segments url)).

(** A group exposes an operation when some request is routed to a route of
    the group that carries it out. *)
Definition exposes (g : group) (o : operation) : Prop :=
  ∃ m url r, dispatch m url = Some (g, r) ∧ operation_of r = o.

(** ** Backends and the interpreter

    Whatever answers the awaited calls: the database service, [bcrypt] and
    the clock, with a state of their own. *)

Record backend (S : Type) : Type := {
  db_exec : dbcall -> S -> dbreply * S;
  hash_exec : json -> S -> option string * S;
  compare_exec : json -> json -> S -> option bool * S;
  now_exec : S -> Z * S;
  date_exec : json -> S -> option Z * S
}.

Arguments db_exec {S} _ _ _.
Arguments hash_exec {S} _ _ _.
Arguments compare_exec {S} _ _ _ _.
Arguments now_exec {S} _ _.
Arguments date_exec {S} _ _ _.

(** How a handler ends: it sent a response, or its promise rejected and it
    sent none. *)
Inductive outcome (A : Type) : Type :=
| Sent (a : A)
| Threw (msg : string).

Arguments Sent {A} a.
Arguments Threw {A} msg.

(** [run B p s]: the outcome of [p] from the backend state [s], the state
    left behind and the database calls issued, each with its reply. *)
Fixpoint run {S A : Type} (B : backend S) (p : prog A) (s : S)
    : outcome A * S * list (dbcall * dbreply) :=
  match p with
  | Ret a => (Sent a, s, [])
  | Throw m => (Threw m, s, [])
  | Await_db c k =>
      let a := db_exec B c s in
      let r := run B (k a.1) a.2 in
      (r.1.1, r.1.2, (c, a.1) :: r.2)
  | Await_hash d k =>
      let a := hash_exec B d s in run B (k a.1) a.2
  | Await_compare d h k =>
      let a := compare_exec B d h s in run B (k a.1) a.2
  | Date_now k =>
      let a := now_exec B s in run B (k a.1) a.2
  | Date_of v k =>
      let a := date_exec B v s in run B (k a.1) a.2
  end.

Definition outcome_of {S A : Type} (r : outcome A * S * list (dbcall * dbreply)) : outcome A := r.1.1.
Definition state_of {S A : Type} (r : outcome A * S * list (dbcall * dbreply)) : S := r.1.2.
Definition calls_of {S A : Type} (r : outcome A * S * list (dbcall * dbreply)) : list (dbcall * dbreply) := r.2.

Definition is_insert (c : dbcall) : bool :=
  match c with InsertSelect _ _ => true | _ => false end.

(** The status the routers answer with when a database call of the given
    shape fails: reads of a whole table and counts 500, a single row looked
    up by id 404 (401 when it is the login lookup), writes 400. *)
Definition failure_status (g : group) (c : dbcall) : Z :=
  match c with
  | SelectAll _ | SelectCount _ => 500
  | SelectEqSingle _ _ _ =>
      match g with auth_group => 401 | _ => 404 end
  | InsertSelect _ _ | UpdateEqSelect _ _ _ _ | DeleteEq _ _ _ | DeleteIn _ _ _ => 400
  end.

(** The row-count ceiling of a table. *)
Definition ceiling (t : table) : Z :=
  match t with
  | users => 10
  | content_posts => 5
  | announcements => 5
  | registered_emails => 60
  end.

(** ** A reference model of the hosted service

    The database is a hosted service outside the repository.  What the
    statements about stored rows assume of it is written down here: the
    tables are lists of rows behind the client, and any call may fail;
    [faults] says, call after call, whether the next database call fails and
    with which message.  A count that succeeds is exact, an insert that
    succeeds appends its rows.  [bcrypt] and [Date] are those of a
    [runtime]. *)

#[global] Instance table_eq_dec : EqDecision table.
Proof. solve_decision. Defined.

Record runtime : Type := {
  hash_fn : nat -> string -> string;      (* salt, plaintext *)
  compare_fn : string -> string -> bool;  (* plaintext, hash *)
  date_parse : json -> option Z
}.

Record world : Type := {
  rows : table -> list json;
  faults : list (option string);
  clock : Z;
  salt : nat
}.

(** The text under which the service compares a filter value to a column. *)
Definition pg_text (v : json) : option string :=
  match v with
  | JStr s => Some s
  | JNum n => Some (pretty n)
  | JBool b => Some (if b then "true" else "false")
  | _ => None
  end.

Definition pg_eq (a b : json) : bool :=
  match pg_text a, pg_text b with
  | Some x, Some y => String.eqb x y
  | _, _ => false
  end.

Definition matching (col : string) (v : json) (row : json) : bool :=
  pg_eq (get row col) v.

Definition among (col : string) (vs : json) (row : json) : bool :=
  match vs with
  | JArr l => existsb (pg_eq (get row col)) l
  | _ => false
  end.

Definition succeeded (d : json) : dbreply :=
  {| data := d; error := None; count := None |}.

Definition failed (msg : string) : dbreply :=
  {| data := JNull; error := Some msg; count := None |}.

(** The tables with the rows of [t] replaced. *)
Definition set_rows (t : table) (l : list json) (db : table -> list json)
    : table -> list json :=
  fun t' => if decide (t' = t) then l else db t'.

(** A call that reaches the tables. *)
Definition perform (c : dbcall) (db : table -> list json)
    : dbreply * (table -> list json) :=
  match c with
  | SelectAll t => (succeeded (JArr (db t)), db)
  | SelectEqSingle t col v =>
      match List.filter (matching col v) (db t) with
      | [row] => (succeeded row, db)
      | _ => (failed "JSON object requested, multiple (or no) rows returned", db)
      end
  | SelectCount t =>
      ({| data := JNull; error := None; count := Some (Z.of_nat (length (db t))) |}, db)
  | InsertSelect t new => (succeeded (JArr new), set_rows t (db t ++ new) db)
  | UpdateEqSelect t values col v =>
      let upd row :=
        if matching col v row then JObj (own_props values ∪ own_props row) else row in
      (succeeded (JArr (map upd (List.filter (matching col v) (db t)))),
       set_rows t (map upd (db t)) db)
  | DeleteEq t col v =>
      (succeeded JNull, set_rows t (List.filter (fun row => negb (matching col v row)) (db t)) db)
  | DeleteIn t col vs =>
      (succeeded JNull, set_rows t (List.filter (fun row => negb (among col vs row)) (db t)) db)
  end.

Definition service_db (c : dbcall) (w : world) : dbreply * world :=
  match faults w with
  | Some msg :: fs =>
      (failed msg, {| rows := rows w; faults := fs; clock := clock w; salt := salt w |})
  | None :: fs =>
      let a := perform c (rows w) in
      (a.1, {| rows := a.2; faults := fs; clock := clock w; salt := salt w |})
  | [] =>
      let a := perform c (rows w) in
      (a.1, {| rows := a.2; faults := []; clock := clock w; salt := salt w |})
  end.

Definition service_hash (rt : runtime) (plain : json) (w : world) : option string * world :=
  match plain with
  | JStr p =>
      (Some (hash_fn rt (salt w) p),
       {| rows := rows w; faults := faults w; clock := clock w; salt := S (salt w) |})
  | _ => (None, w)
  end.

Definition service_compare (rt : runtime) (plain hash : json) (w : world)
    : option bool * world :=
  match plain, hash with
  | JStr p, JStr h => (Some (compare_fn rt p h), w)
  | _, _ => (None, w)
  end.

Definition service (rt : runtime) : backend world := {|
  db_exec := service_db;
  hash_exec := service_hash rt;
  compare_exec := service_compare rt;
  now_exec := fun w => (clock w, w);
  date_exec := fun v w => (date_parse rt v, w)
|}.

(** The number of rows of a table. *)
Definition row_count (w : world) (t : table) : Z := Z.of_nat (length (rows w t)).

(** No failure is pending for the next database call. *)
Definition next_call_succeeds (w : world) : Prop :=
  match faults w with
  | Some _ :: _ => False
  | _ => True
  end.

(** The create routes with the table each inserts into. *)
Definition create_routes : list (table * (request -> prog response)) := [
  (users, create_user);
  (users, create_users);
  (content_posts, create_post);
  (announcements, create_announcement);
  (registered_emails, register)
].

(** The single-item create routes; [validated] says that the request gets
    past the checks the handler makes before it counts the rows: a password
    that is present and that [bcrypt] hashes for create-user, an email for
    register, nothing for the other two. *)
Inductive single_create : Type :=
| create_user_route | create_post_route | create_announcement_route | register_route.

Definition single_handler (e : single_create) : request -> prog response :=
  match e with
  | create_user_route => create_user
  | create_post_route => create_post
  | create_announcement_route => create_announcement
  | register_route => register
  end.

Definition single_table (e : single_create) : table :=
  match e with
  | create_user_route => users
  | create_post_route => content_posts
  | create_announcement_route => announcements
  | register_route => registered_emails
  end.

Definition validated (e : single_create) (req : request) : bool :=
  match e with
  | create_user_route =>
      match get (body req) "password" with
      | JStr s => negb (String.eqb s "")
      | _ => false
      end
  | register_route => truthy (get (body req) "email")
  | create_post_route | create_announcement_route => true
  end.

(** A stand-in for [bcrypt] and [Date] used in the examples: it marks a hash
    with a prefix, reads a number as a time in milliseconds and knows the
    time value of one timestamp. *)
Definition example_runtime : runtime := {|
  hash_fn := fun _ p => String.append "$2b$10$" p;
  compare_fn := fun p h => String.eqb h (String.append "$2b$10$" p);
  date_parse := fun v =>
    match v with
    | JNum n => Some n
    | JStr s =>
        if String.eqb s "2023-11-14T22:13:20.000Z" then Some 1700000000000 else None
    | _ => None
    end
|}.

Definition empty_world : world :=
  {| rows := fun _ => []; faults := []; clock := 0; salt := 0%nat |}.

Definition with_body (b : json) : request := {| params := ∅; body := b |}.

(** Whether a value is an array with at least one element. *)
Definition is_nonempty_array (v : json) : bool :=
  match v with
  | JArr (_ :: _) => true
  | _ => false
  end.


(** How a settled callback of create-users relates to the element it was
    given: without a password field it rejected; if it fulfilled, the
    password was truthy and the row carries a hash in its place. *)
Definition settled_user (u : json) (r : string + json) : Prop :=
  (own_props u !! "password" = None → ∃ m, r = inl m)
  ∧ (∀ row, r = inr row →
       truthy (get u "password") = true
       ∧ ∃ h, row = JObj (<["password" := JStr h]> (rest u ["password"]))).

(** The step the create routes share, once the request is validated: count
    the rows of [t], refuse when [n] more would exceed [limit], else insert
    [new].  Each create handler is an instance of it (see
    [create_post_guarded] and the lemmas next to it). *)
Definition guarded_insert (t : table) (n limit : Z) (msg : string) (new : list json)
    : prog response :=
  c ← supabase (SelectCount t);
  match error c with
  | Some m => Ret (send 500 (error_json m))
  | None =>
      if count_or_0 c + n >? limit then Ret (send 400 (error_json msg))
      else r ← supabase (InsertSelect t new); reply_or 400 201 r
  end.

(** Two states of the reference service with the same tables and the same
    pending failures. *)
Definition same_tables (w w' : world) : Prop :=
  rows w' = rows w ∧ faults w' = faults w.

(** The message of the error body: the handlers pass [error.message] on,
    except login, which answers with a fixed text. *)
Definition failure_message (g : group) (m : string) : string :=
  match g with
  | auth_group => "Invalid email or password."
  | _ => m
  end.

(** Requests served one after the other on the reference service: the
    state the last one leaves. *)
Fixpoint serve_all (rt : runtime) (ps : list (prog response)) (w : world) : world :=
  match ps with
  | [] => w
  | p :: ps' => serve_all rt ps' (state_of (run (service rt) p w))
  end.

(** The six operations a resource group is said to expose. *)
Definition six_operations : list operation :=
  [get_all; get_by_id; create_one; update_by_id; delete_by_id; bulk_delete].

(** ** The shape of a handler's calls *)

(** The table a call goes to. *)
Definition table_of_call (c : dbcall) : table :=
  match c with
  | SelectAll t | SelectEqSingle t _ _ | SelectCount t | InsertSelect t _
  | UpdateEqSelect t _ _ _ | DeleteEq t _ _ | DeleteIn t _ _ => t
  end.

(** The table behind a resource group; login reads the users. *)
Definition group_table (g : group) : table :=
  match g with
  | users_group | auth_group => users
  | content_group => content_posts
  | announcements_group => announcements
  | registered_emails_group => registered_emails
  end.

(** A call that changes rows. *)
Definition is_write (c : dbcall) : bool :=
  match c with
  | InsertSelect _ _ | UpdateEqSelect _ _ _ _ | DeleteEq _ _ _ | DeleteIn _ _ _ => true
  | SelectAll _ | SelectEqSingle _ _ _ | SelectCount _ => false
  end.

(** The calls an operation is made of: a read of the table, a lookup by id
    (by email for login), a count and an insert, an update or a delete
    filtered on id. *)
Definition call_of_operation (o : operation) (c : dbcall) : bool :=
  match o, c with
  | get_all, SelectAll _ => true
  | get_by_id, SelectEqSingle _ col _ => String.eqb col "id"
  | login_check, SelectEqSingle _ col _ => String.eqb col "email"
  | (create_one | create_many), (SelectCount _ | InsertSelect _ _) => true
  | update_by_id, UpdateEqSelect _ _ col _ => String.eqb col "id"
  | delete_by_id, DeleteEq _ col _ => String.eqb col "id"
  | bulk_delete, DeleteIn _ col _ => String.eqb col "id"
  | _, _ => false
  end.

(** No write is followed by another call. *)
Fixpoint writes_last (cs : list dbcall) : bool :=
  match cs with
  | [] => true
  | c :: cs' =>
      match cs' with
      | [] => true
      | _ :: _ => negb (is_write c) && writes_last cs'
      end
  end.

(** At most two calls, each one of the operation and on the group's table,
    a write only as the last. *)
Definition calls_ok (g : group) (o : operation) (cs : list dbcall) : bool :=
  (length cs <=? 2)%nat
  && forallb (fun c => call_of_operation o c
                       && bool_decide (table_of_call c = group_table g)) cs
  && writes_last cs.

(** The operations that only read. *)
Definition read_only (o : operation) : bool :=
  match o with
  | get_all | get_by_id | login_check => true
  | _ => false
  end.

(** The update routes, each with its table. *)
Definition update_routes : list (table * (request -> prog response)) := [
  (users, update_user);
  (content_posts, update_post);
  (announcements, update_announcement)
].

(** The ids of the rows of a table, in order. *)
Definition ids_of (w : world) (t : table) : list json :=
  map (fun row => get row "id") (rows w t).

(** The keys of the login projection. *)
Definition projection_keys : gset string :=
  {[ "id"; "email"; "first_name"; "middle_name"; "last_name"; "suffix" ]}.

(** The get-by-id and delete-by-id handlers of each table. *)
Definition by_id_handlers
    : list (table * (request -> prog response) * (request -> prog response)) := [
  (users, get_user, delete_user);
  (content_posts, get_content, delete_post);
  (announcements, get_announcement, delete_announcement);
  (registered_emails, get_registered_email, delete_email)
].

(** * Properties *)

(** ** The interpreter *)

Section Run.
Context {S : Type} (B : backend S).

Lemma run_bind {A C : Type} (p : prog A) (f : A -> prog C) (s : S) :
  run B (p ≫= f) s =
    match run B p s with
    | (Sent a, s', t) => let r := run B (f a) s' in (r.1.1, r.1.2, t ++ r.2)
    | (Threw m, s', t) => (Threw m, s', t)
    end.
Proof.
  revert s.
  induction p as [a|m|c k IH|d k IH|d h k IH|k IH|v k IH]; intros s;
    unfold mbind, prog_bind in *; simpl.
  - by destruct (run B (f a) s) as [[o s'] t].
  - done.
  - rewrite IH. by destruct (run B (k _) _) as [[[a|m] s'] t].
  - apply IH.
  - apply IH.
  - apply IH.
  - apply IH.
Qed.

Lemma run_settle {A : Type} (p : prog A) (s : S) :
  run B (settle p) s =
    match run B p s with
    | (Sent a, s', t) => (Sent (inr a), s', t)
    | (Threw m, s', t) => (Sent (inl m), s', t)
    end.
Proof.
  revert s.
  induction p as [a|m|c k IH|d k IH|d h k IH|k IH|v k IH]; intros s; simpl;
    try done; try apply IH.
  rewrite IH. by destruct (run B (k _) _) as [[[a|m] s'] t].
Qed.

(** A promise never leaves [settle] by a rejection. *)
Lemma run_settle_sent {A : Type} (p : prog A) (s : S) :
  ∃ r, outcome_of (run B (settle p) s) = Sent r.
Proof.
  rewrite run_settle. destruct (run B p s) as [[[a|m] s'] t]; eauto.
Qed.

(** The callback of create-users asks [bcrypt] only: it issues no
    database call.  Without a password field it throws; when it returns,
    the password of the row is what [bcrypt.hash] answered. *)
Lemma run_hash_user (u : json) (s : S) :
  calls_of (run B (hash_user u) s) = []
  ∧ (own_props u !! "password" = None →
       ∃ m, outcome_of (run B (hash_user u) s) = Threw m)
  ∧ (∀ row, outcome_of (run B (hash_user u) s) = Sent row →
       truthy (get u "password") = true
       ∧ ∃ h, (hash_exec B (get u "password") s).1 = Some h
              ∧ row = JObj (<["password" := JStr h]> (rest u ["password"]))).
Proof.
  assert (Hget : own_props u !! "password" = None → truthy (get u "password") = false).
  { intros H. unfold get. by rewrite H. }
  unfold hash_user.
  destruct u; try (split_and!; [done|eauto|done]).
  all: destruct (truthy (get _ "password")) eqn:Ht; simpl;
    [ | split_and!; [done|eauto|done] ].
  all: unfold mbind, prog_bind; simpl;
    destruct (hash_exec B _ s) as [[h|] s'] eqn:Hh; simpl.
  all: split_and!; try done.
  all: try (intros H; apply Hget in H; congruence).
  all: intros row [= <-]; eauto.
Qed.

Lemma collect_inr {A : Type} (rs : list (string + A)) (l : list A) :
  collect rs = inr l → rs = map inr l.
Proof.
  revert l. induction rs as [|[m|a] rs IH]; intros l; simpl.
  - by intros [= <-].
  - done.
  - destruct (collect rs) as [m|l'] eqn:E; [done|].
    intros [= <-]. simpl. by rewrite (IH l').
Qed.

Lemma collect_inl {A : Type} (rs : list (string + A)) (m : string) :
  inl m ∈ rs → ∃ m', collect rs = inl m'.
Proof.
  induction rs as [|[m0|a] rs IH]; simpl.
  - by intros ?%elem_of_nil.
  - eauto.
  - intros [?|H]%elem_of_cons; [done|].
    destruct (IH H) as [m' ->]. eauto.
Qed.

Lemma run_settle_all_hash_user (us : list json) (s : S) :
  ∃ rs s', run B (settle_all (map hash_user us)) s = (Sent rs, s', [])
           ∧ Forall2 settled_user us rs.
Proof.
  revert s. induction us as [|u us IH]; intros s; simpl.
  - eauto.
  - rewrite run_bind, run_settle.
    destruct (run_hash_user u s) as (Hc & Hmiss & Hrow).
    destruct (run B (hash_user u) s) as [[o s1] t] eqn:E.
    unfold calls_of, outcome_of in *. simpl in *. subst t.
    destruct (IH s1) as (rs & s2 & Hrun & Hall).
    assert (Hrest : ∀ r : string + json,
      run B (rs0 ← settle_all (map hash_user us); Ret (r :: rs0)) s1
      = (Sent (r :: rs), s2, [])).
    { intros r. rewrite run_bind, Hrun. done. }
    destruct o as [row|m]; simpl; rewrite Hrest; simpl.
    + eexists _, _. split; [done|]. constructor; [|done]. split.
      * intros H. destruct (Hmiss H) as [? ?]. done.
      * intros ? [= <-]. destruct (Hrow row eq_refl) as (? & h & _ & ->). eauto.
    + eexists _, _. split; [done|]. constructor; [|done]. split; [eauto|done].
Qed.

(** [Promise.all] over the callbacks of create-users: no database call is
    issued; an element without a password field makes it reject; when it
    fulfils, there is one row per element and each row's password is a
    [bcrypt] hash. *)
Lemma run_Promise_all_hash_user (us : list json) (s : S) :
  calls_of (run B (Promise_all (map hash_user us)) s) = []
  ∧ ((∃ u, u ∈ us ∧ own_props u !! "password" = None) →
       ∃ m, outcome_of (run B (Promise_all (map hash_user us)) s) = Threw m)
  ∧ (∀ l, outcome_of (run B (Promise_all (map hash_user us)) s) = Sent l →
       Forall2 (λ u row, truthy (get u "password") = true
                 ∧ ∃ h, row = JObj (<["password" := JStr h]> (rest u ["password"])))
               us l).
Proof.
  unfold Promise_all. rewrite run_bind.
  destruct (run_settle_all_hash_user us s) as (rs & s' & -> & Hall). simpl.
  destruct (collect rs) as [m|l] eqn:Ec; simpl.
  - split_and!; [done|eauto|done].
  - apply collect_inr in Ec. subst rs. split_and!; [done| |].
    + intros (u & Hu & Hnone).
      apply list_elem_of_lookup in Hu as [i Hi].
      destruct (Forall2_lookup_l _ _ _ _ _ Hall Hi) as (r & Hr & [Hm _]).
      destruct (Hm Hnone) as [m ->].
      apply list_lookup_fmap_Some in Hr as (? & ? & ?). done.
    + intros ? [= <-]. unfold outcome_of. simpl.
      apply (proj1 (Forall2_fmap_r _ _ _ _)) in Hall.
      eapply Forall2_impl; [exact Hall|]. intros u row [_ H]. by apply H.
Qed.
End Run.

(** ** Request validation *)

(** C8. A create-users request whose body is an array with an element that
    has no password field: the handler throws, so it sends no response (none
    of 201, 400, 500), and it has issued no database call, neither the count
    nor the insert. *)
Theorem create_users_missing_password_throws
    {S : Type} (B : backend S) (s : S) (req : request)
    (us : list json) (i : nat) (u : json) :
  body req = JArr us →
  us !! i = Some u →
  own_props u !! "password" = None →
  ∃ m, outcome_of (run B (create_users req) s) = Threw m
       ∧ calls_of (run B (create_users req) s) = [].
Proof.
  intros Hb Hi Hnone. unfold create_users. rewrite Hb, run_bind.
  destruct (run_Promise_all_hash_user B us s) as (Hc & Hthrow & _).
  destruct Hthrow as [m Hm].
  { exists u. split; [|done]. apply list_elem_of_lookup. eauto. }
  destruct (run B (Promise_all (map hash_user us)) s) as [[o s'] t].
  unfold outcome_of, calls_of in *. simpl in *. subst. eauto.
Qed.

Lemma create_users_missing_password_throws_witness :
  let req := with_body (JArr [JObj {[ "email" := JStr "a@b.c" ]}]) in
  body req = JArr [JObj {[ "email" := JStr "a@b.c" ]}]
  ∧ [JObj {[ "email" := JStr "a@b.c" ]}] !! 0%nat = Some (JObj {[ "email" := JStr "a@b.c" ]})
  ∧ own_props (JObj {[ "email" := JStr "a@b.c" ]}) !! "password" = None
  ∧ ∃ m, outcome_of (run (service example_runtime) (create_users req) empty_world) = Threw m
         ∧ calls_of (run (service example_runtime) (create_users req) empty_world) = [].
Proof.
  split_and!; [reflexivity..|].
  apply (create_users_missing_password_throws (service example_runtime) empty_world
           (with_body (JArr [JObj {[ "email" := JStr "a@b.c" ]}]))
           [JObj {[ "email" := JStr "a@b.c" ]}] 0%nat
           (JObj {[ "email" := JStr "a@b.c" ]})); reflexivity.
Defined.

(** C9. An update-user request without an id, and a delete-announcements
    request whose ids is not a non-empty array, are answered 400 before any
    database call is issued: the backend is left in the state it was in. *)
Theorem validation_failure_issues_no_call
    {S : Type} (B : backend S) (s : S) (req : request) :
  (own_props (body req) !! "id" = None →
     run B (update_user req) s
     = (Sent (send 400 (error_json "User ID is required in the request body.")), s, []))
  ∧ (is_nonempty_array (get (body req) "ids") = false →
     run B (delete_announcements req) s
     = (Sent (send 400 (error_json "Request body must include an array of ids.")), s, [])).
Proof.
  split.
  - intros H. unfold update_user, get. rewrite H. reflexivity.
  - intros H. unfold delete_announcements.
    destruct (get (body req) "ids") as [| | | | |[|x l]|]; try done.
Qed.

Lemma validation_failure_issues_no_call_witness :
  let req := with_body (JObj {[ "password" := JStr "pw"; "ids" := JStr "1,2" ]}) in
  let w := {| rows := λ _, [JObj {[ "id" := JNum 1 ]}]; faults := []; clock := 0; salt := 0%nat |} in
  (own_props (body req) !! "id" = None
   ∧ run (service example_runtime) (update_user req) w
     = (Sent (send 400 (error_json "User ID is required in the request body.")), w, []))
  ∧ (is_nonempty_array (get (body req) "ids") = false
     ∧ run (service example_runtime) (delete_announcements req) w
       = (Sent (send 400 (error_json "Request body must include an array of ids.")), w, [])).
Proof.
  intros req w.
  destruct (validation_failure_issues_no_call (service example_runtime) w req) as [H1 H2].
  split; (split; [reflexivity|]).
  - apply H1. reflexivity.
  - apply H2. reflexivity.
Defined.

(** C10. delete-users hands [body.ids] to the database delete as it is,
    whatever the body: its first action is the call.  The bulk deletes of
    announcements, content posts and registered emails answer 400 when ids
    is not an array. *)
Theorem delete_users_forwards_ids_unchecked (req : request) :
  delete_users req
  = Await_db (DeleteIn users "id" (get (body req) "ids")) (reply_or 400 200)
  ∧ (isArray (get (body req) "ids") = false →
       delete_announcements req
       = Ret (send 400 (error_json "Request body must include an array of ids."))
       ∧ delete_posts req
         = Ret (send 400 (error_json "Request body must include an array of ids."))
       ∧ delete_emails req
         = Ret (send 400 (error_json "Body must be { ids: [...] }"))).
Proof.
  split; [reflexivity|].
  intros H. unfold delete_announcements, delete_posts, delete_emails.
  rewrite H. done.
Qed.

Lemma delete_users_forwards_ids_unchecked_witness :
  let req := with_body (JObj {[ "ids" := JStr "all" ]}) in
  delete_users req
  = Await_db (DeleteIn users "id" (JStr "all")) (reply_or 400 200)
  ∧ isArray (get (body req) "ids") = false
  ∧ delete_announcements req
    = Ret (send 400 (error_json "Request body must include an array of ids."))
  ∧ delete_posts req
    = Ret (send 400 (error_json "Request body must include an array of ids."))
  ∧ delete_emails req
    = Ret (send 400 (error_json "Body must be { ids: [...] }")).
Proof.
  intros req.
  destruct (delete_users_forwards_ids_unchecked req) as [H1 H2].
  split; [exact H1|]. split; [reflexivity|]. apply H2. reflexivity.
Defined.

(** ** Failures of the database *)

Section Failures.
Context {S : Type} (B : backend S).

(** The callback of get-all-announcements asks for dates only; every item
    comes back with its own properties and an [expired] flag computed from
    the date the runtime read in its [created_at]. *)
Lemma run_process_items (now : Z) (items : list json) (s : S) :
  ∃ l s', run B (map_prog (process_item now) items) s = (Sent l, s', [])
          ∧ Forall2 (λ item row, ∃ createdAt,
                row = JObj (<["expired" := JStr (expired now createdAt)]> (own_props item)))
              items l.
Proof.
  revert s. induction items as [|item items IH]; intros s; simpl.
  - eauto.
  - unfold mbind, prog_bind. simpl.
    destruct (date_exec B (get item "created_at") s) as [c s1]. simpl.
    destruct (IH s1) as (l & s2 & Hrun & Hall).
    pose proof (run_bind B (map_prog (process_item now) items)
      (λ ys, Ret (JObj (<["expired" := JStr (expired now c)]> (own_props item)) :: ys)) s1)
      as Hb.
    unfold mbind, prog_bind in Hb. rewrite Hb, Hrun. simpl.
    eexists _, _. split; [done|]. constructor; eauto.
Qed.

Ltac run_step :=
  match goal with
  | |- context [db_exec B ?c ?s] =>
      destruct (db_exec B c s) as [[? [?|] ?] ?]; simpl
  | |- context [hash_exec B ?d ?s] =>
      destruct (hash_exec B d s) as [[?|] ?]; simpl
  | |- context [compare_exec B ?d ?h ?s] =>
      destruct (compare_exec B d h s) as [[[|]|] ?]; simpl
  | |- context [now_exec B ?s] =>
      destruct (now_exec B s) as [? ?]; simpl
  | |- context [if ?b then _ else _] => destruct b; simpl
  end.

Ltac failing_call :=
  unfold calls_of, outcome_of; simpl;
  let Hin := fresh "Hin" in
  let Herr := fresh "Herr" in
  intros Hin Herr;
  repeat (apply elem_of_cons in Hin as [[= -> ->]|Hin]);
  try (by apply elem_of_nil in Hin);
  simpl in *; try discriminate; try congruence.

Lemma failing_call_status (g : group) (rt : route) (req : request) (s : S)
    (c : dbcall) (rp : dbreply) (m : string) :
  rt ∈ router_of g →
  (c, rp) ∈ calls_of (run B (handler rt req) s) →
  error rp = Some m →
  outcome_of (run B (handler rt req) s)
  = Sent (send (failure_status g c) (error_json (failure_message g m))).
Proof.
  intros Hrt. revert c rp m.
  destruct g; simpl in Hrt;
    repeat (apply elem_of_cons in Hrt as [->|Hrt]);
    try (by apply elem_of_nil in Hrt); simpl; intros c rp m.
  all: try (unfold get_all_users, get_user, create_user, update_user, delete_user,
      delete_users, login, get_announcement, create_announcement,
      update_announcement, delete_announcement, delete_announcements,
      get_all_registered_emails, get_registered_email, register, delete_email,
      delete_emails, get_all_contents, get_content, create_post, update_post,
      delete_post, delete_posts, reply_or, bcrypt_hash, bcrypt_compare,
      mbind, prog_bind; simpl; repeat run_step; failing_call; fail).
  - (* create-users *)
    unfold create_users. destruct (body req); try (simpl; failing_call; fail).
    rewrite run_bind.
    destruct (run_Promise_all_hash_user B l s) as (Hc & _).
    destruct (run B (Promise_all (map hash_user l)) s) as [[[rows_|?] s1] t];
      unfold calls_of in Hc; simpl in Hc; subst t; [|failing_call].
    unfold reply_or, mbind, prog_bind; simpl; repeat run_step; failing_call.
  - (* get-all-announcements *)
    unfold get_all_announcements, mbind, prog_bind. simpl.
    destruct (db_exec B (SelectAll announcements) s) as [[d [e|] n] s1]; simpl;
      [failing_call|].
    destruct (now_exec B s1) as [now s2]. simpl.
    destruct d; try (simpl; failing_call; fail).
    destruct (run_process_items now l s2) as (l' & s3 & Hrun & _).
    pose proof (run_bind B (map_prog (process_item now) l)
      (λ processed, Ret (send 200 (JArr processed))) s2) as Hb.
    unfold mbind, prog_bind in Hb. rewrite Hb, Hrun. failing_call.
Qed.
End Failures.

(** C5. Whenever a database call of a request fails, the response is the
    JSON object [{ error: message }] and its status follows from the kind of
    call that failed: 500 for the read of a whole table (and for the count
    before an insert), 404 for a row looked up by id, 400 for an insert, an
    update or a delete, 401 for the lookup of login.  Login also answers 401
    when the lookup finds no user and when the password does not match. *)
Theorem database_failure_status
    {S : Type} (B : backend S) (s s1 : S) (req : request)
    (g : group) (rt : route) (c : dbcall) (rp : dbreply) (m : string) :
  (rt ∈ router_of g →
   (c, rp) ∈ calls_of (run B (handler rt req) s) →
   error rp = Some m →
   outcome_of (run B (handler rt req) s)
   = Sent (send (failure_status g c) (error_json (failure_message g m))))
  ∧ (truthy (get (body req) "email") = true →
     truthy (get (body req) "password") = true →
     db_exec B (SelectEqSingle users "email" (get (body req) "email")) s = (rp, s1) →
     is_Some (error rp)
     ∨ truthy (data rp) = false
     ∨ (compare_exec B (get (body req) "password") (get (data rp) "password") s1).1
       = Some false →
     outcome_of (run B (login req) s)
     = Sent (send 401 (error_json "Invalid email or password."))).
Proof.
  split; [apply failing_call_status|].
  intros He Hp Hdb Hfail. unfold login. rewrite He, Hp. simpl.
  unfold mbind, prog_bind, bcrypt_compare. simpl. rewrite Hdb. simpl.
  destruct Hfail as [Herr|[Hnull|Hcmp]].
  - rewrite bool_decide_eq_true_2 by done. done.
  - rewrite Hnull, orb_true_r. done.
  - destruct (bool_decide (is_Some (error rp)) || negb (truthy (data rp))); [done|].
    simpl. destruct (compare_exec B _ _ s1) as [o s2]. simpl in Hcmp. by subst o.
Qed.

Lemma database_failure_status_witness :
  let B := service example_runtime in
  let down := {| rows := λ _, []; faults := [Some "connection refused"]; clock := 0;
                 salt := 0%nat |} in
  let stored := JObj {[ "email" := JStr "a@b.c"; "password" := JStr "$2b$10$secret" ]} in
  let w := {| rows := λ _, [stored]; faults := []; clock := 0; salt := 0%nat |} in
  let req := with_body (JObj {[ "email" := JStr "a@b.c"; "password" := JStr "guess" ]}) in
  let rt := {| method := GET; path := "/get-all-users"; operation_of := get_all;
               handler := get_all_users |} in
  (rt ∈ router_of users_group
   ∧ (SelectAll users, failed "connection refused") ∈ calls_of (run B (handler rt req) down)
   ∧ error (failed "connection refused") = Some "connection refused"
   ∧ outcome_of (run B (handler rt req) down)
     = Sent (send 500 (error_json "connection refused")))
  ∧ (truthy (get (body req) "email") = true
     ∧ truthy (get (body req) "password") = true
     ∧ db_exec B (SelectEqSingle users "email" (get (body req) "email")) w
       = (succeeded stored, w)
     ∧ (compare_exec B (get (body req) "password") (get stored "password") w).1
       = Some false
     ∧ outcome_of (run B (login req) w)
       = Sent (send 401 (error_json "Invalid email or password."))).
Proof.
  intros B down stored w req rt.
  assert (Hrt : rt ∈ router_of users_group) by apply list_elem_of_here.
  assert (Hcall : (SelectAll users, failed "connection refused")
                  ∈ calls_of (run B (handler rt req) down))
    by apply list_elem_of_here.
  split.
  - split_and!; [exact Hrt|exact Hcall|reflexivity|].
    apply (proj1 (database_failure_status B down down req users_group rt
             (SelectAll users) (failed "connection refused") "connection refused"));
      [exact Hrt|exact Hcall|reflexivity].
  - split_and!; [reflexivity..|].
    apply (proj2 (database_failure_status B w w req users_group rt
             (SelectAll users) (succeeded stored) ""));
      [reflexivity|reflexivity|reflexivity|].
    right. right. reflexivity.
Defined.

(** ** The create routes on the reference service *)

Lemma create_post_guarded (req : request) :
  create_post req
  = guarded_insert content_posts 1 5
      "Total content posts already reached its limit." [body req].
Proof. reflexivity. Qed.

Lemma create_announcement_guarded (req : request) :
  create_announcement req
  = guarded_insert announcements 1 5
      "Total announcements already reached its limit." [body req].
Proof. reflexivity. Qed.

Lemma register_guarded (req : request) :
  register req
  = if negb (truthy (get (body req) "email")) then
      Ret (send 400 (error_json "Email is required"))
    else
      guarded_insert registered_emails 1 60
        "Total registered emails already reached its limit."
        [JObj {[ "email" := get (body req) "email" ]}].
Proof. reflexivity. Qed.

Lemma create_user_guarded (req : request) :
  create_user req
  = if negb (truthy (get (body req) "password")) then
      Ret (send 400 (error_json "Password is required."))
    else
      hashedPassword ← bcrypt_hash (get (body req) "password");
      guarded_insert users 1 10 "Total users cannot exceed 10."
        [JObj (<["password" := JStr hashedPassword]> (rest (body req) ["password"]))].
Proof. reflexivity. Qed.

Lemma create_users_guarded (req : request) (us : list json) :
  body req = JArr us →
  create_users req
  = (usersWithHashedPasswords ← Promise_all (map hash_user us);
     guarded_insert users (Z.of_nat (length us)) 10 "Total users cannot exceed 10."
       usersWithHashedPasswords).
Proof. intros H. unfold create_users. rewrite H. reflexivity. Qed.

Section Service.
Context (rt : runtime).

Lemma same_tables_refl (w : world) : same_tables w w.
Proof. done. Qed.

Lemma same_tables_trans (w1 w2 w3 : world) :
  same_tables w1 w2 → same_tables w2 w3 → same_tables w1 w3.
Proof. intros [H1 H2] [H3 H4]. split; congruence. Qed.

Lemma same_tables_row_count (w w' : world) (t : table) :
  same_tables w w' → row_count w' t = row_count w t.
Proof. intros [H _]. unfold row_count. by rewrite H. Qed.


Lemma service_hash_same_tables (d : json) (w : world) :
  same_tables w (service_hash rt d w).2.
Proof. by destruct d. Qed.

(** Hashing the users of a bulk request leaves the tables as they are. *)
Lemma run_hash_user_same_tables (u : json) (w : world) :
  same_tables w (state_of (run (service rt) (hash_user u) w)).
Proof.
  unfold hash_user.
  destruct u; try done.
  all: destruct (truthy (get _ "password")); try done.
  all: unfold mbind, prog_bind, state_of; simpl.
  all: match goal with
       | |- context [service_hash rt ?d ?w0] =>
           pose proof (service_hash_same_tables d w0) as H;
           destruct (service_hash rt d w0) as [[h|] w']; done
       end.
Qed.

Lemma run_settle_all_same_tables (us : list json) (w : world) :
  same_tables w (state_of (run (service rt) (settle_all (map hash_user us)) w)).
Proof.
  revert w. induction us as [|u us IH]; intros w; simpl; [done|].
  rewrite run_bind, run_settle.
  pose proof (run_hash_user_same_tables u w) as H1.
  destruct (run (service rt) (hash_user u) w) as [[o w1] t].
  unfold state_of in *. simpl in H1.
  assert (H2 : ∀ r : string + json,
    same_tables w (run (service rt)
      (rs ← settle_all (map hash_user us); Ret (r :: rs)) w1).1.2).
  { intros r. rewrite run_bind. specialize (IH w1).
    destruct (run (service rt) (settle_all (map hash_user us)) w1) as [[[rs|m] w2] t'];
      simpl in *; by eapply same_tables_trans. }
  destruct o; simpl; apply H2.
Qed.

Lemma run_Promise_all_same_tables (us : list json) (w : world) :
  same_tables w (state_of (run (service rt) (Promise_all (map hash_user us)) w)).
Proof.
  unfold Promise_all. rewrite run_bind.
  pose proof (run_settle_all_same_tables us w) as H.
  destruct (run (service rt) (settle_all (map hash_user us)) w) as [[[rs|m] w1] t];
    unfold state_of in *; simpl in *; [|done].
  by destruct (collect rs).
Qed.



End Service.

Section Ceiling.
Context (rt : runtime).

Lemma row_count_set_rows_other (w : world) (t t' : table) (l : list json) :
  t' ≠ t → length (set_rows t l (rows w) t') = length (rows w t').
Proof. intros H. unfold set_rows. by rewrite decide_False. Qed.

(** The guarded insert never takes a table over its ceiling, whatever the
    pending failures. *)
Lemma guarded_insert_keeps_ceiling (t : table) (msg : string) (new : list json)
    (w : world) (t' : table) :
  row_count w t' ≤ ceiling t' →
  row_count
    (state_of (run (service rt)
       (guarded_insert t (Z.of_nat (length new)) (ceiling t) msg new) w)) t'
  ≤ ceiling t'.
Proof.
  intros Hle. unfold guarded_insert, mbind, prog_bind, state_of, row_count in *.
  simpl. unfold service_db.
  destruct (faults w) as [|[m|] fs]; simpl; try done.
  all: unfold count_or_0; simpl.
  all: destruct (Z.gtb_spec (Z.of_nat (length (rows w t)) + Z.of_nat (length new))
         (ceiling t)) as [Hgt|Hok]; simpl; try done.
  all: unfold service_db; simpl.
  all: try (destruct fs as [|[m|] fs]; simpl; try done).
  all: unfold set_rows; destruct (decide (t' = t)) as [->|]; try done.
  all: rewrite length_app; lia.
Qed.

(** When the count succeeds and the table has no room for [n] more rows,
    the answer is 400, the count was the only call and the tables are as
    before. *)
Lemma guarded_insert_full (t : table) (n limit : Z) (msg : string) (new : list json)
    (w : world) :
  next_call_succeeds w →
  row_count w t + n > limit →
  ∃ rp w',
    run (service rt) (guarded_insert t n limit msg new) w
    = (Sent (send 400 (error_json msg)), w', [(SelectCount t, rp)])
    ∧ rows w' = rows w.
Proof.
  intros Hok Hfull. unfold guarded_insert, mbind, prog_bind, row_count in *.
  simpl. unfold service_db, next_call_succeeds in *.
  destruct (faults w) as [|[m|] fs]; simpl; try done.
  all: unfold count_or_0; simpl.
  all: destruct (Z.gtb_spec (Z.of_nat (length (rows w t)) + n) limit); [|lia].
  all: simpl; eauto.
Qed.

(** When the count succeeds and there is room, the insert is issued. *)
Lemma guarded_insert_room (t : table) (n limit : Z) (msg : string) (new : list json)
    (w : world) :
  next_call_succeeds w →
  row_count w t + n ≤ limit →
  ∃ rp c,
    calls_of (run (service rt) (guarded_insert t n limit msg new) w)
    = [c; (InsertSelect t new, rp)].
Proof.
  intros Hok Hroom. unfold guarded_insert, mbind, prog_bind, row_count, calls_of in *.
  simpl. unfold service_db, next_call_succeeds in *.
  destruct (faults w) as [|[m|] fs]; simpl; try done.
  all: unfold count_or_0; simpl.
  all: destruct (Z.gtb_spec (Z.of_nat (length (rows w t)) + n) limit); [lia|].
  all: simpl; unfold reply_or; simpl; eauto.
  destruct (error _); simpl; eauto.
Qed.
End Ceiling.

(** C3, as the code has it.  For a single-item create request (users,
    content posts, announcements, registered emails) that passes the
    handler's own validation and whose count query succeeds: when the row
    count of the table plus one exceeds its ceiling (10, 5, 5, 60), the
    answer is 400, no insert is issued and the tables are unchanged;
    otherwise the insert of one row is issued. *)
Theorem single_create_row_limit (rt : runtime) (e : single_create)
    (req : request) (w : world) :
  validated e req = true →
  next_call_succeeds w →
  (row_count w (single_table e) + 1 > ceiling (single_table e) →
     (∃ msg, outcome_of (run (service rt) (single_handler e req) w)
             = Sent (send 400 (error_json msg)))
     ∧ (∀ c rp, (c, rp) ∈ calls_of (run (service rt) (single_handler e req) w) →
                is_insert c = false)
     ∧ rows (state_of (run (service rt) (single_handler e req) w)) = rows w)
  ∧ (row_count w (single_table e) + 1 ≤ ceiling (single_table e) →
     ∃ row rp, (InsertSelect (single_table e) [row], rp)
               ∈ calls_of (run (service rt) (single_handler e req) w)).
Proof.
  intros Hv Hok.
  assert (Hfull : ∀ t msg new w0, next_call_succeeds w0 → rows w0 = rows w →
    row_count w0 t + 1 > ceiling t →
    let r := run (service rt) (guarded_insert t 1 (ceiling t) msg new) w0 in
    (∃ m, outcome_of r = Sent (send 400 (error_json m)))
    ∧ (∀ c rp, (c, rp) ∈ calls_of r → is_insert c = false)
    ∧ rows (state_of r) = rows w).
  { intros t msg new w0 H0 Hrows Hgt.
    destruct (guarded_insert_full rt t 1 (ceiling t) msg new w0 H0 Hgt)
      as (rp & w' & Hrun & Hsame).
    cbv zeta. rewrite Hrun. unfold outcome_of, calls_of, state_of. simpl.
    split_and!; [eauto| |congruence].
    intros c rp' [[= -> ->]|[]%elem_of_nil]%elem_of_cons. done. }
  assert (Hroom : ∀ t msg row w0, next_call_succeeds w0 →
    row_count w0 t + 1 ≤ ceiling t →
    ∃ row' rp, (InsertSelect t [row'], rp)
      ∈ calls_of (run (service rt) (guarded_insert t 1 (ceiling t) msg [row]) w0)).
  { intros t msg row w0 H0 Hle.
    destruct (guarded_insert_room rt t 1 (ceiling t) msg [row] w0 H0 Hle)
      as (rp & c & ->).
    exists row, rp. apply list_elem_of_further, list_elem_of_here. }
  destruct e; simpl single_handler; simpl single_table; simpl in Hv.
  - (* create-user *)
    rewrite create_user_guarded.
    destruct (get (body req) "password") as [| | | |p| |] eqn:Hp; try done.
    simpl truthy. rewrite Hv. simpl negb. cbv iota.
    unfold mbind, prog_bind, bcrypt_hash. simpl.
    set (w1 := {| rows := rows w; faults := faults w; clock := clock w;
                  salt := S (salt w) |}).
    split; intros H.
    + apply (Hfull users); done.
    + apply (Hroom users); done.
  - rewrite create_post_guarded. split; intros H.
    + apply (Hfull content_posts); done.
    + apply (Hroom content_posts); done.
  - rewrite create_announcement_guarded. split; intros H.
    + apply (Hfull announcements); done.
    + apply (Hroom announcements); done.
  - rewrite register_guarded, Hv. simpl negb. cbv iota. split; intros H.
    + apply (Hfull registered_emails); done.
    + apply (Hroom registered_emails); done.
Qed.

Lemma single_create_row_limit_witness :
  let full := {| rows := λ _, replicate 5 (JObj ∅); faults := []; clock := 0;
                 salt := 0%nat |} in
  let req := with_body (JObj {[ "title" := JStr "news" ]}) in
  (validated create_post_route req = true
   ∧ next_call_succeeds full
   ∧ row_count full content_posts + 1 > ceiling content_posts
   ∧ (∃ msg, outcome_of (run (service example_runtime) (create_post req) full)
             = Sent (send 400 (error_json msg)))
   ∧ rows (state_of (run (service example_runtime) (create_post req) full)) = rows full)
  ∧ (validated create_post_route req = true
     ∧ next_call_succeeds empty_world
     ∧ row_count empty_world content_posts + 1 ≤ ceiling content_posts
     ∧ ∃ row rp, (InsertSelect content_posts [row], rp)
                 ∈ calls_of (run (service example_runtime) (create_post req) empty_world)).
Proof.
  intros full req. split.
  - destruct (single_create_row_limit example_runtime create_post_route req full
                eq_refl I) as [Hfull _].
    destruct Hfull as (H1 & _ & H3); [reflexivity|].
    split_and!; [reflexivity|exact I|reflexivity|exact H1|exact H3].
  - destruct (single_create_row_limit example_runtime create_post_route req empty_world
                eq_refl I) as [_ Hroom].
    split_and!; [reflexivity|exact I|by vm_compute|].
    apply Hroom. by vm_compute.
Defined.

(** C3 as stated fails where the handler validates first: create-user
    without a password on an empty table is within the ceiling, and yet no
    insert is issued (the answer is 400 "Password is required."). *)
Lemma create_user_without_password_counterexample :
  let req := with_body (JObj {[ "email" := JStr "a@b.c" ]}) in
  row_count empty_world users + 1 ≤ ceiling users
  ∧ outcome_of (run (service example_runtime) (create_user req) empty_world)
    = Sent (send 400 (error_json "Password is required."))
  ∧ ¬ (∃ c rp, (c, rp) ∈ calls_of (run (service example_runtime) (create_user req) empty_world)
               ∧ is_insert c = true).
Proof.
  intros req. split_and!; [by vm_compute|reflexivity|].
  intros (c & rp & Hin & _). by apply elem_of_nil in Hin.
Qed.

(** ** The ceiling as an invariant *)

(** One create request keeps every table within its ceiling. *)
Lemma create_route_keeps_ceiling (rt : runtime) (t : table)
    (h : request -> prog response) (req : request) (w : world) (t' : table) :
  (t, h) ∈ create_routes →
  row_count w t' ≤ ceiling t' →
  row_count (state_of (run (service rt) (h req) w)) t' ≤ ceiling t'.
Proof.
  intros Hin Hle. unfold create_routes in Hin.
  repeat (apply elem_of_cons in Hin as [[= -> ->]|Hin]);
    try (by apply elem_of_nil in Hin).
  - (* create-user *)
    rewrite create_user_guarded.
    destruct (truthy (get (body req) "password")); [|done]. simpl negb. cbv iota.
    unfold mbind, prog_bind, bcrypt_hash. simpl.
    destruct (get (body req) "password") as [| | | |p| |]; try done. simpl.
    apply (guarded_insert_keeps_ceiling rt users _ [_]). done.
  - (* create-users *)
    destruct (body req) as [| | | | |l|] eqn:Hb; try (unfold create_users; by rewrite Hb).
    rewrite (create_users_guarded req l Hb), run_bind.
    pose proof (run_Promise_all_same_tables rt l w) as Hsame.
    destruct (run_Promise_all_hash_user (service rt) l w) as (_ & _ & Hrows).
    destruct (run (service rt) (Promise_all (map hash_user l)) w) as [[[new|m] w1] tr];
      unfold state_of, outcome_of in *; simpl in *.
    + specialize (Hrows new eq_refl). apply Forall2_length in Hrows.
      rewrite Hrows.
      apply (guarded_insert_keeps_ceiling rt users).
      by rewrite (same_tables_row_count w w1).
    + by rewrite (same_tables_row_count w w1).
  - rewrite create_post_guarded.
    apply (guarded_insert_keeps_ceiling rt content_posts _ [_]). done.
  - rewrite create_announcement_guarded.
    apply (guarded_insert_keeps_ceiling rt announcements _ [_]). done.
  - rewrite register_guarded.
    destruct (truthy (get (body req) "email")); [|done]. simpl negb. cbv iota.
    apply (guarded_insert_keeps_ceiling rt registered_emails _ [_]). done.
Qed.

(** Any sequence of create requests, served one after the other, keeps
    every table within its ceiling. *)
Lemma create_sequence_keeps_ceiling (rt : runtime) (ps : list (prog response))
    (w : world) (t' : table) :
  Forall (λ p, ∃ t h req, (t, h) ∈ create_routes ∧ p = h req) ps →
  row_count w t' ≤ ceiling t' →
  row_count (serve_all rt ps w) t' ≤ ceiling t'.
Proof.
  intros Hall. revert w.
  induction Hall as [|p ps (t & h & req & Hin & ->) _ IH]; intros w Hle; simpl.
  - done.
  - apply IH. by apply (create_route_keeps_ceiling rt t).
Qed.





(** ** Login *)

(** On any backend: a lookup that returns a user and a comparison that
    succeeds give 200 with the message and the six-field projection. *)
Lemma login_accepts {S : Type} (B : backend S) (s s1 s2 : S) (req : request)
    (rp : dbreply) :
  truthy (get (body req) "email") = true →
  truthy (get (body req) "password") = true →
  db_exec B (SelectEqSingle users "email" (get (body req) "email")) s = (rp, s1) →
  error rp = None →
  truthy (data rp) = true →
  compare_exec B (get (body req) "password") (get (data rp) "password") s1
  = (Some true, s2) →
  ∃ userData : gmap string json,
    run B (login req) s
    = (Sent (send 200 (JObj (<["message" := JStr "Login successful"]>
                            (<["userData" := JObj userData]> ∅)))),
       s2, [(SelectEqSingle users "email" (get (body req) "email"), rp)])
    ∧ dom userData
      = {[ "id"; "email"; "first_name"; "middle_name"; "last_name"; "suffix" ]}
    ∧ userData !! "password" = None
    ∧ ∀ k, k ∈ dom userData → userData !! k = Some (get (data rp) k).
Proof.
  intros He Hp Hdb Herr Huser Hcmp.
  eexists. split; [|split_and!].
  - unfold login. rewrite He, Hp. simpl.
    unfold mbind, prog_bind, bcrypt_compare. simpl.
    rewrite Hdb. simpl. rewrite Herr, Huser. simpl.
    rewrite Hcmp. simpl. reflexivity.
  - set_solver.
  - by simplify_map_eq.
  - intros k Hk.
    rewrite !dom_insert_L, dom_empty_L in Hk.
    repeat (apply elem_of_union in Hk as [Hk|Hk]);
      try (apply elem_of_singleton in Hk as ->; by simplify_map_eq).
    set_solver.
Qed.

(** C1, as the code has it.  A login request with a non-empty email and a
    non-empty password, whose email matches exactly one stored user (the
    lookup succeeding) and whose password [bcrypt] compares equal to that
    user's stored hash, is answered 200 with a [userData] object that has
    exactly the fields id, email, first_name, middle_name, last_name and
    suffix, each taken from the stored user, and no password. *)
Theorem login_returns_projection (rt : runtime) (req : request) (w : world)
    (user : json) (p h : string) :
  truthy (get (body req) "email") = true →
  get (body req) "password" = JStr p →
  p ≠ EmptyString →
  next_call_succeeds w →
  List.filter (matching "email" (get (body req) "email")) (rows w users) = [user] →
  get user "password" = JStr h →
  compare_fn rt p h = true →
  ∃ userData : gmap string json,
    outcome_of (run (service rt) (login req) w)
    = Sent (send 200 (JObj (<["message" := JStr "Login successful"]>
                           (<["userData" := JObj userData]> ∅))))
    ∧ dom userData
      = {[ "id"; "email"; "first_name"; "middle_name"; "last_name"; "suffix" ]}
    ∧ userData !! "password" = None
    ∧ ∀ k, k ∈ dom userData → userData !! k = Some (get user k).
Proof.
  intros He Hp Hne Hok Hone Hh Hcmp.
  assert (Htp : truthy (get (body req) "password") = true).
  { rewrite Hp. simpl. by destruct p. }
  assert (Htu : truthy user = true).
  { destruct user; try done; by vm_compute in Hh. }
  assert (∃ w1, service_db (SelectEqSingle users "email" (get (body req) "email")) w
                = (succeeded user, w1)) as [w1 Hdb].
  { unfold service_db, next_call_succeeds in *.
    destruct (faults w) as [|[m|] fs]; try done; simpl; rewrite Hone; eauto. }
  destruct (login_accepts (service rt) w w1 w1 req (succeeded user))
    as (userData & Hrun & Hdom & Hpw & Hfields); try done.
  - simpl. unfold service_compare. by rewrite Hp, Hh, Hcmp.
  - exists userData. rewrite Hrun. done.
Qed.

Lemma login_returns_projection_witness :
  let stored := JObj {[ "id" := JNum 7; "email" := JStr "a@b.c";
                        "password" := JStr "$2b$10$secret"; "first_name" := JStr "Ann";
                        "last_name" := JStr "Lee" ]} in
  let w := {| rows := λ _, [stored]; faults := []; clock := 0; salt := 0%nat |} in
  let req := with_body (JObj {[ "email" := JStr "a@b.c"; "password" := JStr "secret" ]}) in
  (truthy (get (body req) "email") = true
   ∧ get (body req) "password" = JStr "secret"
   ∧ next_call_succeeds w
   ∧ List.filter (matching "email" (get (body req) "email")) (rows w users) = [stored]
   ∧ get stored "password" = JStr "$2b$10$secret"
   ∧ compare_fn example_runtime "secret" "$2b$10$secret" = true)
  ∧ ∃ userData : gmap string json,
      outcome_of (run (service example_runtime) (login req) w)
      = Sent (send 200 (JObj (<["message" := JStr "Login successful"]>
                             (<["userData" := JObj userData]> ∅))))
      ∧ dom userData
        = {[ "id"; "email"; "first_name"; "middle_name"; "last_name"; "suffix" ]}
      ∧ userData !! "password" = None
      ∧ userData !! "id" = Some (JNum 7)
      ∧ userData !! "first_name" = Some (JStr "Ann")
      ∧ userData !! "suffix" = Some JUndefined.
Proof.
  intros stored w req.
  split; [split_and!; [reflexivity|reflexivity|exact I|reflexivity..]|].
  destruct (login_returns_projection example_runtime req w stored
              "secret" "$2b$10$secret")
    as (userData & Hrun & Hdom & Hpw & Hfields);
    [reflexivity|reflexivity|discriminate|exact I|reflexivity|reflexivity|reflexivity|].
  exists userData. split_and!; [exact Hrun|exact Hdom|exact Hpw|..].
  all: rewrite Hfields; [reflexivity|rewrite Hdom; set_solver].
Defined.

(** C1 as stated fails at the handler's first check: a user stored through
    create-user with an empty email is matched by the email of the request,
    and the password compares equal to the stored hash, yet the answer is
    400, not 200. *)
Lemma login_empty_email_counterexample :
  let signup := with_body (JObj {[ "email" := JStr ""; "password" := JStr "secret";
                                   "first_name" := JStr "Ann" ]}) in
  let w := state_of (run (service example_runtime) (create_user signup) empty_world) in
  let req := with_body (JObj {[ "email" := JStr ""; "password" := JStr "secret" ]}) in
  ∃ user h,
    rows w users = [user]
    ∧ matching "email" (get (body req) "email") user = true
    ∧ get user "password" = JStr h
    ∧ compare_fn example_runtime "secret" h = true
    ∧ outcome_of (run (service example_runtime) (login req) w)
      = Sent (send 400 (error_json "Email and password are required.")).
Proof.
  intros signup w req.
  exists (JObj {[ "email" := JStr ""; "password" := JStr "$2b$10$secret";
                  "first_name" := JStr "Ann" ]}), "$2b$10$secret".
  split_and!; by vm_compute.
Qed.

(** ** The expired flag *)

(** What the handler computes: the flag is ["true"] from the sixteenth whole
    day on. *)
Lemma expired_true_iff (now c : Z) :
  expired now (Some c) = "true" ↔ 16 * (1000 * 60 * 60 * 24) ≤ now - c.
Proof.
  unfold expired, diffDays.
  change (1000 * 60 * 60 * 24) with 86400000.
  destruct (Z.gtb_spec ((now - c) `div` 86400000) 15) as [H|H]; split.
  - intros _. revert H. Z.div_mod_to_equations. lia.
  - done.
  - done.
  - intros H'. exfalso. revert H H'. Z.div_mod_to_equations. lia.
Qed.

Lemma expired_invalid_date (now : Z) : expired now None = "false".
Proof. reflexivity. Qed.

(** The 200 answer of get-all-announcements: every row with its own
    properties and the flag of its [created_at]. *)
Lemma get_all_announcements_rows {S : Type} (B : backend S) (s : S) (req : request)
    (r : response) :
  outcome_of (run B (get_all_announcements req) s) = Sent r →
  status r = 200 →
  ∃ items processed now,
    (db_exec B (SelectAll announcements) s).1.(data) = JArr items
    ∧ payload r = JArr processed
    ∧ Forall2 (λ item row, ∃ createdAt,
         row = JObj (<["expired" := JStr (expired now createdAt)]> (own_props item)))
       items processed.
Proof.
  unfold get_all_announcements, mbind, prog_bind, outcome_of. simpl.
  destruct (db_exec B (SelectAll announcements) s) as [[d [e|] n] s1]; simpl.
  { intros [= <-]. done. }
  destruct (now_exec B s1) as [now s2]. simpl.
  destruct d as [| | | | |items|]; try done.
  destruct (run_process_items B now items s2) as (l & s3 & Hrun & Hall).
  pose proof (run_bind B (map_prog (process_item now) items)
    (λ processed, Ret (send 200 (JArr processed))) s2) as Hb.
  unfold mbind, prog_bind in Hb. rewrite Hb, Hrun. simpl.
  intros [= <-] _. exists items, l, now. done.
Qed.

(** C2, the code at an input where it departs from the claim.  An
    announcement created fifteen and a half days before the request is older
    than 15 days, yet get-all-announcements flags it ["false"]: the handler
    floors the age to whole days before it compares with 15. *)
Theorem announcement_aged_15_days_12_hours_not_flagged :
  let day := 1000 * 60 * 60 * 24 in
  let created := 1700000000000 in
  let item := JObj {[ "id" := JNum 1; "title" := JStr "notice";
                      "created_at" := JStr "2023-11-14T22:13:20.000Z" ]} in
  let w := {| rows := λ _, [item]; faults := [];
              clock := created + 15 * day + day `div` 2; salt := 0%nat |} in
  date_parse example_runtime (get item "created_at") = Some created
  ∧ clock w - created > 15 * day
  ∧ outcome_of (run (service example_runtime) (get_all_announcements (with_body (JObj ∅))) w)
    = Sent (send 200 (JArr [JObj {[ "id" := JNum 1; "title" := JStr "notice";
                                    "created_at" := JStr "2023-11-14T22:13:20.000Z";
                                    "expired" := JStr "false" ]}])).
Proof. split_and!; by vm_compute. Qed.

(** ** Password hashing *)

Ltac member_cases H :=
  repeat (apply elem_of_cons in H as [H|H]);
  try (by apply elem_of_nil in H); try discriminate.

(** create-user: the row of any insert it issues carries, as its password,
    what [bcrypt.hash] answered for the submitted one. *)
Lemma create_user_inserts_hash {S : Type} (B : backend S) (s : S) (req : request)
    (t : table) (new : list json) (rp : dbreply) :
  (InsertSelect t new, rp) ∈ calls_of (run B (create_user req) s) →
  ∃ h, (hash_exec B (get (body req) "password") s).1 = Some h
       ∧ t = users
       ∧ new = [JObj (<["password" := JStr h]> (rest (body req) ["password"]))].
Proof.
  unfold create_user, bcrypt_hash, reply_or, mbind, prog_bind, calls_of.
  destruct (truthy (get (body req) "password")); simpl;
    [|by intros ?%elem_of_nil].
  destruct (hash_exec B (get (body req) "password") s) as [[h|] s1]; simpl;
    [|by intros ?%elem_of_nil].
  destruct (db_exec B (SelectCount users) s1) as [[d [e|] n] s2]; simpl.
  { intros Hin. member_cases Hin. }
  destruct (_ >? _); simpl.
  { intros Hin. member_cases Hin. }
  destruct (db_exec B _ s2) as [[d' [e'|] n'] s3]; simpl.
  all: intros Hin; member_cases Hin; simplify_eq; eauto.
Qed.

(** update-user with a truthy password: the update carries the hash. *)
Lemma update_user_hashes_truthy_password {S : Type} (B : backend S) (s : S)
    (req : request) (t : table) (values : json) (col : string) (v : json)
    (rp : dbreply) :
  truthy (get (body req) "password") = true →
  (UpdateEqSelect t values col v, rp) ∈ calls_of (run B (update_user req) s) →
  ∃ h, (hash_exec B (get (body req) "password") s).1 = Some h
       ∧ values = JObj (<["password" := JStr h]> (rest (body req) ["id"])).
Proof.
  intros Hp.
  assert (Hrest : get (JObj (rest (body req) ["id"])) "password" = get (body req) "password").
  { unfold get, rest. simpl. by rewrite lookup_delete_ne. }
  unfold update_user.
  destruct (truthy (get (body req) "id")); [|by intros ?%elem_of_nil].
  simpl negb. cbv iota. rewrite Hrest, Hp.
  unfold bcrypt_hash, reply_or, mbind, prog_bind, calls_of. simpl.
  destruct (hash_exec B (get (body req) "password") s) as [[h|] s1]; simpl;
    [|by intros ?%elem_of_nil].
  destruct (db_exec B _ s1) as [[d' [e'|] n'] s3]; simpl.
  all: intros Hin; member_cases Hin; simplify_eq; eauto.
Qed.

(** C6, the code at an input where it departs from the claim.  update-user
    with a password that is present but empty asks [bcrypt] nothing and sends
    the empty string to the password column as it is: the stored hash is
    replaced by the plaintext.  (create-user refuses such a password with
    400.) *)
Theorem update_user_empty_password_stored_unhashed :
  let req := with_body (JObj {[ "id" := JNum 1; "password" := JStr "" ]}) in
  let stored := JObj {[ "id" := JNum 1; "email" := JStr "a@b.c";
                        "password" := JStr "$2b$10$secret" ]} in
  let w := {| rows := λ t, match t with users => [stored] | _ => [] end;
              faults := []; clock := 0; salt := 0%nat |} in
  update_user req
  = Await_db (UpdateEqSelect users (JObj {[ "password" := JStr "" ]}) "id" (JNum 1))
      (reply_or 400 200)
  ∧ rows (state_of (run (service example_runtime) (update_user req) w)) users
    = [JObj {[ "id" := JNum 1; "email" := JStr "a@b.c"; "password" := JStr "" ]}]
  ∧ outcome_of (run (service example_runtime) (create_user req) w)
    = Sent (send 400 (error_json "Password is required.")).
Proof. split_and!; by vm_compute. Qed.

(** ** Routing *)

Lemma dispatch_mounts_in_router (mounts : list (string * group)) (m : http_method)
    (url : list string) (g : group) (r : route) :
  dispatch_mounts mounts m url = Some (g, r) → r ∈ router_of g.
Proof.
  induction mounts as [|[pre g'] mounts IH]; simpl; [done|].
  destruct (strip_prefix (segments pre) url) as [sub|]; [|done].
  destruct (route_in (router_of g') m sub) as [r'|] eqn:E; [|done].
  intros [= <- <-]. unfold route_in in E.
  apply find_some in E as [E _]. by apply list_elem_of_In.
Qed.

(** A request is only ever served by a route of the router it was mounted
    to. *)
Lemma dispatch_in_router (m : http_method) (url : string) (g : group) (r : route) :
  dispatch m url = Some (g, r) → r ∈ router_of g.
Proof. apply dispatch_mounts_in_router. Qed.

Lemma not_exposed (g : group) (o : operation) :
  Forall (λ r, operation_of r ≠ o) (router_of g) → ¬ exposes g o.
Proof.
  intros Hall (m & url & r & Hd & Hop).
  apply dispatch_in_router in Hd.
  rewrite Forall_forall in Hall. by apply (Hall r).
Qed.

Ltac exposed_at m url :=
  exists m, url; eexists; split; [reflexivity|reflexivity].

Ltac no_route := apply not_exposed; repeat constructor; discriminate.

(** C7, as the code has it.  The routers are mounted under [/v1/...].
    Users and announcements expose the six operations (get-all, get-by-id,
    create, update-by-id, delete-by-id, bulk-delete-by-ids); content posts
    expose get-all, create, update-by-id, delete-by-id and
    bulk-delete-by-ids; registered emails expose all but update-by-id, for
    which they have no route; auth exposes login and nothing else. *)
Theorem exposed_operations :
  Forall (exposes users_group) six_operations
  ∧ Forall (exposes announcements_group) six_operations
  ∧ Forall (exposes content_group)
      [get_all; create_one; update_by_id; delete_by_id; bulk_delete]
  ∧ Forall (exposes registered_emails_group)
      [get_all; get_by_id; create_one; delete_by_id; bulk_delete]
  ∧ ¬ exposes registered_emails_group update_by_id
  ∧ (∀ o, exposes auth_group o ↔ o = login_check)
  ∧ Forall (λ mount, String.prefix "/v1/" mount.1 = true) app.
Proof.
  split_and!.
  - repeat constructor.
    + exposed_at GET "/v1/users/get-all-users".
    + exposed_at GET "/v1/users/get-user/7".
    + exposed_at POST "/v1/users/create-user".
    + exposed_at PUT "/v1/users/update-user".
    + exposed_at DELETE "/v1/users/delete-user/7".
    + exposed_at DELETE "/v1/users/delete-users".
  - repeat constructor.
    + exposed_at GET "/v1/announcements/get-all-announcements".
    + exposed_at GET "/v1/announcements/get-announcement/7".
    + exposed_at POST "/v1/announcements/create-announcement".
    + exposed_at PUT "/v1/announcements/update-announcement".
    + exposed_at DELETE "/v1/announcements/delete-announcement/7".
    + exposed_at DELETE "/v1/announcements/delete-announcements".
  - repeat constructor.
    + exposed_at GET "/v1/content/get-all-contents".
    + exposed_at POST "/v1/content/create-post".
    + exposed_at PUT "/v1/content/update-post".
    + exposed_at DELETE "/v1/content/delete-post/7".
    + exposed_at DELETE "/v1/content/delete-posts".
  - repeat constructor.
    + exposed_at GET "/v1/registered-emails/get-all-registered-emails".
    + exposed_at GET "/v1/registered-emails/get-registered-email/7".
    + exposed_at POST "/v1/registered-emails/register".
    + exposed_at DELETE "/v1/registered-emails/delete-email/7".
    + exposed_at DELETE "/v1/registered-emails/delete-emails".
  - no_route.
  - intros o. split.
    + intros H. destruct o; try done; exfalso; revert H; no_route.
    + intros ->. exposed_at POST "/v1/auth/login".
  - repeat constructor.
Qed.

(** C7 as stated fails on the auth group, whose router has the login route
    only: it serves login and exposes no get-all. *)
Lemma auth_exposes_login_only_counterexample :
  exposes auth_group login_check ∧ ¬ exposes auth_group get_all.
Proof.
  split; [exposed_at POST "/v1/auth/login"|no_route].
Qed.

(** The path a router is given starts with a slash. *)
Lemma strip_prefix_head (pre url sub : list string) :
  strip_prefix pre url = Some sub → ∃ tl, sub = EmptyString :: tl.
Proof.
  revert url. induction pre as [|p pre IH]; intros url; simpl.
  - intros [= <-]. eauto.
  - destruct url as [|u url]; [done|].
    destruct (String.eqb p u); [apply IH|done].
Qed.

Lemma dispatch_mounts_route (mounts : list (string * group)) (m : http_method)
    (url : list string) (g : group) (r : route) :
  dispatch_mounts mounts m url = Some (g, r) →
  ∃ tl, route_in (router_of g) m (EmptyString :: tl) = Some r.
Proof.
  induction mounts as [|[pre g'] mounts IH]; simpl; [done|].
  destruct (strip_prefix (segments pre) url) as [sub|] eqn:Es; [|done].
  apply strip_prefix_head in Es as [tl ->].
  destruct (route_in (router_of g') m (EmptyString :: tl)) as [r'|] eqn:E; [|done].
  intros [= <- <-]. eauto.
Qed.

(** The get-by-id route of the content router is registered as
    ['get-content/:id'], without the leading slash the paths a router sees
    start with: no request is routed to it. *)
Lemma get_content_route_never_taken (m : http_method) (url : string) (r : route) :
  dispatch m url = Some (content_group, r) → operation_of r ≠ get_by_id.
Proof.
  intros [tl E]%dispatch_mounts_route.
  unfold route_in in E. apply find_some in E as [Hin Hm].
  simpl in Hin. destruct Hin as [<-|[<-|[<-|[<-|[<-|[<-|[]]]]]]]; try done.
  simpl in Hm. by rewrite andb_false_r in Hm.
Qed.

(** * Further properties of the handlers *)

(** ** What a handler asks of the database *)

Section Shape.
Context {S : Type} (B : backend S).

Ltac shape_step :=
  match goal with
  | |- context [db_exec B ?c ?s] =>
      destruct (db_exec B c s) as [[? [?|] ?] ?]; simpl
  | |- context [hash_exec B ?d ?s] =>
      destruct (hash_exec B d s) as [[?|] ?]; simpl
  | |- context [compare_exec B ?d ?h ?s] =>
      destruct (compare_exec B d h s) as [[[|]|] ?]; simpl
  | |- context [now_exec B ?s] =>
      destruct (now_exec B s) as [? ?]; simpl
  | |- context [if ?b then _ else _] => destruct b; simpl
  end.

Ltac unfold_handlers :=
  unfold get_all_users, get_user, create_user, update_user, delete_user,
    delete_users, login, get_announcement, create_announcement,
    update_announcement, delete_announcement, delete_announcements,
    get_all_registered_emails, get_registered_email, register, delete_email,
    delete_emails, get_all_contents, get_content, create_post, update_post,
    delete_post, delete_posts, reply_or, bcrypt_hash, bcrypt_compare,
    mbind, prog_bind; simpl.

(** The calls of every route are those of its operation, on the table of
    its group, at most two, with a write only at the end. *)
Lemma route_calls_ok (g : group) (rt : route) (req : request) (s : S) :
  rt ∈ router_of g →
  calls_ok g (operation_of rt) (map fst (calls_of (run B (handler rt req) s))) = true.
Proof.
  intros Hrt.
  destruct g; simpl in Hrt;
    repeat (apply elem_of_cons in Hrt as [->|Hrt]);
    try (by apply elem_of_nil in Hrt); simpl.
  all: try (unfold_handlers; unfold calls_of; repeat shape_step; reflexivity).
  - (* create-users *)
    unfold create_users. destruct (body req); try reflexivity.
    rewrite run_bind.
    destruct (run_Promise_all_hash_user B l s) as (Hc & _).
    destruct (run B (Promise_all (map hash_user l)) s) as [[[rows_|?] s1] t];
      unfold calls_of in *; simpl in Hc; subst t; [|reflexivity].
    unfold reply_or, mbind, prog_bind; simpl; repeat shape_step; reflexivity.
  - (* get-all-announcements *)
    unfold get_all_announcements, mbind, prog_bind, calls_of. simpl.
    destruct (db_exec B (SelectAll announcements) s) as [[d [e|] n] s1]; simpl;
      [reflexivity|].
    destruct (now_exec B s1) as [now s2]. simpl.
    destruct d; try reflexivity.
    destruct (run_process_items B now l s2) as (l' & s3 & Hrun & _).
    pose proof (run_bind B (map_prog (process_item now) l)
      (λ processed, Ret (send 200 (JArr processed))) s2) as Hb.
    unfold mbind, prog_bind in Hb. rewrite Hb, Hrun. reflexivity.
Qed.

(** A handler that issued no call answered 400 or threw. *)
Lemma no_call_outcome (g : group) (rt : route) (req : request) (s : S) :
  rt ∈ router_of g →
  calls_of (run B (handler rt req) s) = [] →
  (∃ msg, outcome_of (run B (handler rt req) s) = Sent (send 400 (error_json msg)))
  ∨ (∃ m, outcome_of (run B (handler rt req) s) = Threw m).
Proof.
  intros Hrt.
  destruct g; simpl in Hrt;
    repeat (apply elem_of_cons in Hrt as [->|Hrt]);
    try (by apply elem_of_nil in Hrt); simpl.
  all: try (unfold_handlers; unfold calls_of, outcome_of; repeat shape_step;
            solve [discriminate | intros _; eauto]).
  - (* create-users *)
    unfold create_users. destruct (body req);
      try (unfold outcome_of; simpl; intros _; eauto; fail).
    rewrite run_bind.
    destruct (run B (Promise_all (map hash_user l)) s) as [[[rows_|?] s1] t];
      unfold calls_of, outcome_of; simpl; [|intros _; eauto].
    unfold reply_or, mbind, prog_bind; simpl.
    intros H. apply app_eq_nil in H as [_ H]. revert H.
    repeat shape_step; discriminate.
Qed.
End Shape.

Lemma writes_last_spec (cs : list dbcall) (i : nat) (c : dbcall) :
  writes_last cs = true → cs !! i = Some c → is_write c = true → Datatypes.S i = length cs.
Proof.
  revert i. induction cs as [|c0 cs IH]; intros i Hw Hi Hc; [done|].
  destruct cs as [|c1 cs].
  - destruct i; [done|]. by destruct i.
  - simpl in Hw. apply andb_true_iff in Hw as [Hn Hw].
    destruct i as [|i]; simpl in Hi.
    + injection Hi as ->. by rewrite Hc in Hn.
    + simpl. f_equal. by apply IH.
Qed.

Lemma calls_ok_forall (g : group) (o : operation) (cs : list (dbcall * dbreply)) :
  calls_ok g o (map fst cs) = true →
  Forall (λ cr, call_of_operation o cr.1 = true
                ∧ table_of_call cr.1 = group_table g) cs.
Proof.
  unfold calls_ok. intros [[_ H]%andb_true_iff _]%andb_true_iff.
  rewrite forallb_forall in H. apply Forall_forall. intros [c rp] Hin.
  assert (Hc : In c (map fst cs)).
  { apply in_map_iff. exists (c, rp). split; [done|]. by apply list_elem_of_In. }
  apply H in Hc. apply andb_true_iff in Hc as [H1 H2].
  split; [done|]. by apply bool_decide_eq_true in H2.
Qed.

(** X1. The calls of every route, on every backend and for every request:
    at most two; each is a call of the route's operation (a read of the
    whole table for get-all, a lookup by id for get-by-id and by email for
    login, a count or an insert for a create, an update, a delete or a bulk
    delete filtered on id) and goes to the table of the route's group; and a
    call that writes is the last call of the request. *)
Theorem route_call_discipline {S : Type} (B : backend S) (s : S)
    (g : group) (rt : route) (req : request) :
  rt ∈ router_of g →
  (length (calls_of (run B (handler rt req) s)) ≤ 2)%nat
  ∧ (∀ c rp, (c, rp) ∈ calls_of (run B (handler rt req) s) →
       call_of_operation (operation_of rt) c = true
       ∧ table_of_call c = group_table g)
  ∧ (∀ i c rp, calls_of (run B (handler rt req) s) !! i = Some (c, rp) →
       is_write c = true →
       Datatypes.S i = length (calls_of (run B (handler rt req) s))).
Proof.
  intros Hrt. pose proof (route_calls_ok B g rt req s Hrt) as Hok.
  split_and!.
  - unfold calls_ok in Hok.
    apply andb_true_iff in Hok as [[Hlen _]%andb_true_iff _].
    apply Nat.leb_le in Hlen. by rewrite length_map in Hlen.
  - intros c rp Hin. apply calls_ok_forall in Hok.
    rewrite Forall_forall in Hok. apply (Hok (c, rp) Hin).
  - intros i c rp Hi Hc. unfold calls_ok in Hok.
    apply andb_true_iff in Hok as [_ Hw].
    rewrite <- (length_map fst).
    apply (writes_last_spec _ i c Hw); [|done].
    by rewrite list_lookup_fmap, Hi.
Qed.

Lemma route_call_discipline_witness :
  let req := with_body (JObj {[ "title" := JStr "news" ]}) in
  let rt := {| method := POST; path := "/create-post"; operation_of := create_one;
               handler := create_post |} in
  rt ∈ router_of content_group
  ∧ calls_of (run (service example_runtime) (handler rt req) empty_world)
    = [(SelectCount content_posts,
        {| data := JNull; error := None; count := Some 0 |});
       (InsertSelect content_posts [body req], succeeded (JArr [body req]))]
  ∧ (∀ c rp, (c, rp) ∈ calls_of (run (service example_runtime) (handler rt req) empty_world) →
       call_of_operation create_one c = true ∧ table_of_call c = content_posts).
Proof.
  intros req rt.
  assert (Hrt : rt ∈ router_of content_group)
    by apply list_elem_of_further, list_elem_of_further, list_elem_of_here.
  split_and!; [exact Hrt|reflexivity|].
  apply (route_call_discipline (service example_runtime) empty_world
           content_group rt req Hrt).
Defined.

(** X2. A route never reports success over a failed call: when a handler
    answers with a status below 400, it has issued at least one database
    call and every call it issued was answered without an error. *)
Theorem success_only_after_successful_calls {S : Type} (B : backend S) (s : S)
    (g : group) (rt : route) (req : request) (r : response) :
  rt ∈ router_of g →
  outcome_of (run B (handler rt req) s) = Sent r →
  status r < 400 →
  calls_of (run B (handler rt req) s) ≠ []
  ∧ Forall (λ cr, error cr.2 = None) (calls_of (run B (handler rt req) s)).
Proof.
  intros Hrt Hout Hst. split.
  - intros Hnil.
    destruct (no_call_outcome B g rt req s Hrt Hnil) as [[msg H]|[m H]];
      rewrite Hout in H; [|done].
    injection H as ->. simpl in Hst. lia.
  - apply Forall_forall. intros [c rp] Hin. simpl.
    destruct (error rp) as [m|] eqn:Herr; [|done]. exfalso.
    pose proof (failing_call_status B g rt req s c rp m Hrt Hin Herr) as H.
    rewrite Hout in H. injection H as ->. simpl in Hst.
    destruct c, g; simpl in Hst; lia.
Qed.

Lemma success_only_after_successful_calls_witness :
  let req := with_body (JObj {[ "email" := JStr "a@b.c" ]}) in
  let rt := {| method := POST; path := "/register"; operation_of := create_one;
               handler := register |} in
  let run_ := run (service example_runtime) (handler rt req) empty_world in
  rt ∈ router_of registered_emails_group
  ∧ outcome_of run_ = Sent (send 201 (JArr [JObj {[ "email" := JStr "a@b.c" ]}]))
  ∧ calls_of run_ ≠ []
  ∧ Forall (λ cr, error cr.2 = None) (calls_of run_).
Proof.
  intros req rt run_.
  assert (Hrt : rt ∈ router_of registered_emails_group)
    by apply list_elem_of_further, list_elem_of_further, list_elem_of_here.
  split; [exact Hrt|]. split; [reflexivity|].
  apply (success_only_after_successful_calls (service example_runtime) empty_world
           registered_emails_group rt req
           (send 201 (JArr [JObj {[ "email" := JStr "a@b.c" ]}])) Hrt);
    [reflexivity|reflexivity].
Defined.

(** ** What a request does to the tables of the reference service *)

Section Tables.
Context (rt : runtime).

Lemma perform_read (c : dbcall) (db : table -> list json) :
  is_write c = false → (perform c db).2 = db.
Proof.
  destruct c; try done. simpl.
  by destruct (List.filter _ _) as [|? [|]].
Qed.

Lemma service_db_read (c : dbcall) (w : world) :
  is_write c = false → rows (service_db c w).2 = rows w.
Proof.
  intros H. unfold service_db.
  destruct (faults w) as [|[m|] fs]; simpl; try done; by apply perform_read.
Qed.

Lemma filter_length_le {A : Type} (f : A -> bool) (l : list A) :
  (length (List.filter f l) ≤ length l)%nat.
Proof.
  induction l as [|a l IH]; simpl; [done|]. destruct (f a); simpl; lia.
Qed.

Lemma perform_no_insert (c : dbcall) (db : table -> list json) (t : table) :
  is_insert c = false → (length ((perform c db).2 t) ≤ length (db t))%nat.
Proof.
  destruct c; try done; simpl; intros _.
  - by destruct (List.filter _ _) as [|? [|]].
  - unfold set_rows. destruct (decide _) as [->|]; [|done]. by rewrite length_map.
  - unfold set_rows. destruct (decide _) as [->|]; [|done]. apply filter_length_le.
  - unfold set_rows. destruct (decide _) as [->|]; [|done]. apply filter_length_le.
Qed.

Lemma service_db_no_insert (c : dbcall) (w : world) (t : table) :
  is_insert c = false → row_count (service_db c w).2 t ≤ row_count w t.
Proof.
  intros H. unfold service_db, row_count.
  destruct (faults w) as [|[m|] fs]; simpl; try done;
    apply inj_le; by apply perform_no_insert.
Qed.

(** A handler whose calls are all reads leaves the tables as they were. *)
Lemma reads_keep_rows {A : Type} (p : prog A) (w : world) :
  Forall (λ cr : dbcall * dbreply, is_write cr.1 = false)
    (calls_of (run (service rt) p w)) →
  rows (state_of (run (service rt) p w)) = rows w.
Proof.
  unfold calls_of, state_of. revert w.
  induction p as [a|m|c k IH|d k IH|d h k IH|k IH|v k IH]; intros w; simpl;
    try done.
  - intros [Hc Hrest]%Forall_cons. simpl in Hc.
    rewrite (IH _ _ Hrest). by apply service_db_read.
  - intros H. rewrite (IH _ _ H).
    apply (service_hash_same_tables rt d w).
  - intros H. rewrite (IH _ _ H). unfold service_compare.
    by destruct d, h.
  - intros H. by rewrite (IH _ _ H).
  - intros H. by rewrite (IH _ _ H).
Qed.

(** A handler that issues no insert lets no table grow. *)
Lemma no_insert_no_growth {A : Type} (p : prog A) (w : world) (t : table) :
  Forall (λ cr : dbcall * dbreply, is_insert cr.1 = false)
    (calls_of (run (service rt) p w)) →
  row_count (state_of (run (service rt) p w)) t ≤ row_count w t.
Proof.
  unfold calls_of, state_of. revert w.
  induction p as [a|m|c k IH|d k IH|d h k IH|k IH|v k IH]; intros w; simpl;
    try done.
  - intros [Hc Hrest]%Forall_cons. simpl in Hc.
    etrans; [apply (IH _ _ Hrest)|]. by apply service_db_no_insert.
  - intros H. etrans; [apply (IH _ _ H)|].
    by rewrite (same_tables_row_count w _ t (service_hash_same_tables rt d w)).
  - intros H. etrans; [apply (IH _ _ H)|]. unfold service_compare.
    by destruct d, h.
  - intros H. apply (IH _ _ H).
  - intros H. apply (IH _ _ H).
Qed.

(** Any one request keeps every table within its ceiling. *)
Lemma route_keeps_ceiling (g : group) (r : route) (req : request) (w : world)
    (t' : table) :
  r ∈ router_of g →
  row_count w t' ≤ ceiling t' →
  row_count (state_of (run (service rt) (handler r req) w)) t' ≤ ceiling t'.
Proof.
  intros Hr Hle.
  destruct (operation_of r) eqn:Hop.
  3, 4: destruct g; simpl in Hr;
    repeat (apply elem_of_cons in Hr as [->|Hr]);
    try (by apply elem_of_nil in Hr); try discriminate; simpl handler.
  3: by apply (create_route_keeps_ceiling rt users); [repeat constructor|].
  3: by apply (create_route_keeps_ceiling rt content_posts); [repeat constructor|].
  3: by apply (create_route_keeps_ceiling rt announcements); [repeat constructor|].
  3: by apply (create_route_keeps_ceiling rt registered_emails); [repeat constructor|].
  3: by apply (create_route_keeps_ceiling rt users); [repeat constructor|].
  all: etrans; [apply no_insert_no_growth|exact Hle].
  all: pose proof (route_calls_ok (service rt) g r req w Hr) as Hok;
    apply calls_ok_forall in Hok; rewrite Hop in Hok;
    eapply Forall_impl; [exact Hok|]; intros [c rp] [Hc _]; simpl in *;
    by destruct c.
Qed.
End Tables.

(** X3. On the reference service, whatever calls fail, the routes that only
    read (get-all, get-by-id, login) leave every table exactly as it was. *)
Theorem read_routes_leave_tables_unchanged (rt : runtime) (g : group) (r : route)
    (req : request) (w : world) :
  r ∈ router_of g →
  read_only (operation_of r) = true →
  rows (state_of (run (service rt) (handler r req) w)) = rows w.
Proof.
  intros Hr Hro. apply reads_keep_rows.
  pose proof (route_calls_ok (service rt) g r req w Hr) as Hok.
  apply calls_ok_forall in Hok.
  eapply Forall_impl; [exact Hok|]. intros [c rp] [Hc _]. simpl in *.
  destruct (operation_of r); try discriminate; by destruct c.
Qed.

Lemma read_routes_leave_tables_unchanged_witness :
  let stored := JObj {[ "email" := JStr "a@b.c"; "password" := JStr "$2b$10$secret" ]} in
  let w := {| rows := λ _, [stored]; faults := [None; Some "timeout"]; clock := 0;
              salt := 0%nat |} in
  let req := with_body (JObj {[ "email" := JStr "a@b.c"; "password" := JStr "secret" ]}) in
  let r := {| method := POST; path := "/login"; operation_of := login_check;
              handler := login |} in
  r ∈ router_of auth_group
  ∧ read_only (operation_of r) = true
  ∧ rows (state_of (run (service example_runtime) (handler r req) w)) = rows w.
Proof.
  intros stored w req r.
  assert (Hr : r ∈ router_of auth_group) by apply list_elem_of_here.
  split_and!; [exact Hr|reflexivity|].
  apply (read_routes_leave_tables_unchanged example_runtime auth_group r req w Hr).
  reflexivity.
Defined.

(** X4. On the reference service, any sequence of requests to any routes of
    the application, served one after the other and with calls failing or
    not, keeps every table within its ceiling (10 users, 5 content posts, 5
    announcements, 60 registered emails) if it was within it at the start. *)
Theorem requests_keep_row_ceilings (rt : runtime) (ps : list (prog response))
    (w : world) (t : table) :
  Forall (λ p, ∃ g r req, r ∈ router_of g ∧ p = handler r req) ps →
  row_count w t ≤ ceiling t →
  row_count (serve_all rt ps w) t ≤ ceiling t.
Proof.
  intros Hall. revert w.
  induction Hall as [|p ps (g & r & req & Hr & ->) _ IH]; intros w Hle; simpl.
  - done.
  - apply IH. by apply (route_keeps_ceiling rt g).
Qed.

Lemma requests_keep_row_ceilings_witness :
  let post := with_body (JObj {[ "title" := JStr "news" ]}) in
  let gone := {| params := {[ "id" := "1" ]}; body := JObj ∅ |} in
  let ps := replicate 7 (create_post post) ++ [delete_post gone; create_post post] in
  Forall (λ p, ∃ g r req, r ∈ router_of g ∧ p = handler r req) ps
  ∧ row_count empty_world content_posts ≤ ceiling content_posts
  ∧ row_count (serve_all example_runtime ps empty_world) content_posts = 5
  ∧ row_count (serve_all example_runtime ps empty_world) content_posts
    ≤ ceiling content_posts.
Proof.
  intros post gone ps.
  assert (Hc : ∃ g r req, r ∈ router_of g ∧ create_post post = handler r req).
  { exists content_group,
      {| method := POST; path := "/create-post"; operation_of := create_one;
         handler := create_post |}, post.
    split; [|reflexivity].
    apply list_elem_of_further, list_elem_of_further, list_elem_of_here. }
  assert (Hd : ∃ g r req, r ∈ router_of g ∧ delete_post gone = handler r req).
  { exists content_group,
      {| method := DELETE; path := "/delete-post/:id"; operation_of := delete_by_id;
         handler := delete_post |}, gone.
    split; [|reflexivity]. do 4 apply list_elem_of_further. apply list_elem_of_here. }
  assert (Hall : Forall (λ p, ∃ g r req, r ∈ router_of g ∧ p = handler r req) ps).
  { unfold ps. simpl. repeat (constructor; [first [exact Hc|exact Hd]|]). constructor. }
  split_and!; [exact Hall|by vm_compute|by vm_compute|].
  apply (requests_keep_row_ceilings example_runtime ps empty_world content_posts Hall).
  by vm_compute.
Defined.

(** ** Responses *)

(** X5. Whatever the backend answers, a response of login is either 200
    with exactly a message and a [userData] object whose keys are id, email,
    first_name, middle_name, last_name and suffix, or 400 or 401 with an
    error object: no response of login carries the password column of the
    row it looked up. *)
Theorem login_response_shapes {S : Type} (B : backend S) (s : S) (req : request)
    (r : response) :
  outcome_of (run B (login req) s) = Sent r →
  (status r = 200
   ∧ ∃ userData : gmap string json,
       payload r = JObj (<["message" := JStr "Login successful"]>
                        (<["userData" := JObj userData]> ∅))
       ∧ dom userData = projection_keys
       ∧ "password" ∉ dom userData)
  ∨ ((status r = 400 ∨ status r = 401) ∧ ∃ msg, payload r = error_json msg).
Proof.
  unfold login, bcrypt_compare, mbind, prog_bind, outcome_of.
  destruct (negb (truthy (get (body req) "email")) || negb (truthy (get (body req) "password")));
    simpl; [intros [= <-]; right; eauto|].
  destruct (db_exec B _ s) as [rp s1]. simpl.
  destruct (bool_decide (is_Some (error rp)) || negb (truthy (data rp)));
    simpl; [intros [= <-]; right; eauto|].
  destruct (compare_exec B _ _ s1) as [[[|]|] s2]; simpl; try done.
  - intros [= <-]. left. split; [done|]. eexists. split; [reflexivity|].
    unfold projection_keys. rewrite !dom_insert_L, dom_empty_L.
    split; [by rewrite (right_id_L ∅ (∪))|].
    rewrite !elem_of_union, !elem_of_singleton, elem_of_empty.
    intuition discriminate.
  - intros [= <-]; right; eauto.
Qed.

Lemma login_response_shapes_witness :
  let stored := JObj {[ "id" := JNum 7; "email" := JStr "a@b.c";
                        "password" := JStr "$2b$10$secret" ]} in
  let w := {| rows := λ _, [stored]; faults := []; clock := 0; salt := 0%nat |} in
  let req := with_body (JObj {[ "email" := JStr "a@b.c"; "password" := JStr "secret" ]}) in
  ∃ r, outcome_of (run (service example_runtime) (login req) w) = Sent r
       ∧ status r = 200
       ∧ ((status r = 200
           ∧ ∃ userData : gmap string json,
               payload r = JObj (<["message" := JStr "Login successful"]>
                                (<["userData" := JObj userData]> ∅))
               ∧ dom userData = projection_keys
               ∧ "password" ∉ dom userData)
          ∨ ((status r = 400 ∨ status r = 401) ∧ ∃ msg, payload r = error_json msg)).
Proof.
  intros stored w req.
  destruct (run (service example_runtime) (login req) w) as [[o w'] cs] eqn:E.
  vm_compute in E. injection E as <- _ _.
  eexists. split; [reflexivity|]. split; [reflexivity|].
  apply (login_response_shapes (service example_runtime) w req). reflexivity.
Defined.



(** ** Sign-up, then login *)








(** ** Creates are all or nothing *)

Lemma guarded_insert_effect (rt : runtime) (t : table) (n limit : Z) (msg : string)
    (new : list json) (w : world) :
  (rows (state_of (run (service rt) (guarded_insert t n limit msg new) w)) = rows w
   ∧ ∀ r, outcome_of (run (service rt) (guarded_insert t n limit msg new) w) = Sent r →
          status r ≠ 201)
  ∨ (outcome_of (run (service rt) (guarded_insert t n limit msg new) w)
     = Sent (send 201 (JArr new))
     ∧ rows (state_of (run (service rt) (guarded_insert t n limit msg new) w))
       = set_rows t (rows w t ++ new) (rows w)).
Proof.
  unfold guarded_insert, reply_or, mbind, prog_bind, outcome_of, state_of. simpl.
  unfold service_db.
  destruct (faults w) as [|[m|] fs]; simpl.
  2: { left. split; [done|]. by intros r [= <-]. }
  all: unfold count_or_0; simpl; destruct (_ >? _); simpl.
  all: try (left; split; [done|]; by intros r [= <-]).
  - right. done.
  - unfold service_db. simpl. destruct fs as [|[m|] fs]; simpl.
    + right. done.
    + left. split; [done|]. by intros r [= <-].
    + right. done.
Qed.

(** X8. On the reference service a create route (create-user, create-users,
    create-post, create-announcement, register) is all or nothing: either it
    answers 201 with the rows it was given and exactly those rows are
    appended to its table, or it answers something else (400, 500, or
    throws) and every table is as before. *)
Theorem create_is_all_or_nothing (rt : runtime) (t : table)
    (h : request -> prog response) (req : request) (w : world) :
  (t, h) ∈ create_routes →
  (rows (state_of (run (service rt) (h req) w)) = rows w
   ∧ ∀ r, outcome_of (run (service rt) (h req) w) = Sent r → status r ≠ 201)
  ∨ (∃ new, outcome_of (run (service rt) (h req) w) = Sent (send 201 (JArr new))
            ∧ rows (state_of (run (service rt) (h req) w))
              = set_rows t (rows w t ++ new) (rows w)).
Proof.
  intros Hin. unfold create_routes in Hin.
  assert (Hg : ∀ t0 n limit msg new w0, rows w0 = rows w →
    (rows (state_of (run (service rt) (guarded_insert t0 n limit msg new) w0)) = rows w
     ∧ ∀ r, outcome_of (run (service rt) (guarded_insert t0 n limit msg new) w0) = Sent r →
            status r ≠ 201)
    ∨ (∃ new', outcome_of (run (service rt) (guarded_insert t0 n limit msg new) w0)
               = Sent (send 201 (JArr new'))
               ∧ rows (state_of (run (service rt) (guarded_insert t0 n limit msg new) w0))
                 = set_rows t0 (rows w t0 ++ new') (rows w))).
  { intros t0 n limit msg new w0 Hw0.
    destruct (guarded_insert_effect rt t0 n limit msg new w0) as [[H1 H2]|[H1 H2]].
    - left. split; [congruence|done].
    - right. exists new. split; [done|]. by rewrite H2, Hw0. }
  repeat (apply elem_of_cons in Hin as [[= -> ->]|Hin]);
    try (by apply elem_of_nil in Hin).
  - (* create-user *)
    rewrite create_user_guarded.
    destruct (truthy (get (body req) "password"));
      [|left; split; [done|]; by intros r [= <-]].
    simpl negb. cbv iota. unfold mbind, prog_bind, bcrypt_hash. simpl.
    destruct (get (body req) "password") as [| | | |p| |];
      try (left; split; [done|]; by intros r).
    simpl. by apply Hg.
  - (* create-users *)
    destruct (body req) as [| | | | |l|] eqn:Hb;
      try (unfold create_users; rewrite Hb; left; split; [done|]; by intros r [= <-]).
    rewrite (create_users_guarded req l Hb), run_bind.
    pose proof (run_Promise_all_same_tables rt l w) as [Hsame _].
    destruct (run (service rt) (Promise_all (map hash_user l)) w) as [[[new|m] w1] tr];
      unfold state_of, outcome_of in *; cbn [fst snd] in *.
    + destruct (Hg users (Z.of_nat (length l)) 10 "Total users cannot exceed 10."
                  new w1 Hsame) as [H|H]; [left|right]; exact H.
    + left. split; [done|]. by intros r.
  - rewrite create_post_guarded. by apply Hg.
  - rewrite create_announcement_guarded. by apply Hg.
  - rewrite register_guarded.
    destruct (truthy (get (body req) "email"));
      [|left; split; [done|]; by intros r [= <-]].
    simpl negb. cbv iota. by apply Hg.
Qed.

Lemma create_is_all_or_nothing_witness :
  let taken := {| rows := λ _, []; faults := [None; Some "duplicate key"]; clock := 0;
                  salt := 0%nat |} in
  let req := with_body (JObj {[ "email" := JStr "a@b.c" ]}) in
  (registered_emails, register) ∈ create_routes
  ∧ outcome_of (run (service example_runtime) (register req) taken)
    = Sent (send 400 (error_json "duplicate key"))
  ∧ rows (state_of (run (service example_runtime) (register req) taken)) = rows taken.
Proof.
  intros taken req.
  assert (Hin : (registered_emails, register) ∈ create_routes).
  { do 4 apply list_elem_of_further. apply list_elem_of_here. }
  split_and!; [exact Hin|reflexivity|].
  destruct (create_is_all_or_nothing example_runtime registered_emails register req taken Hin)
    as [[H _]|(new & H & _)]; [exact H|].
  vm_compute in H. discriminate H.
Defined.

(** ** Announcements as they are listed *)

(** X9. The expired flag is one of the two strings, and it is ["true"]
    exactly when the creation date is valid and at least 16 whole days
    (16 * 86,400,000 ms) lie between it and now; an invalid date, a creation
    in the future and any age below 16 days give ["false"].  Once ["true"],
    the flag stays ["true"] as time passes. *)
Theorem expired_flag_threshold (now later : Z) (createdAt : option Z) :
  (expired now createdAt = "true" ∨ expired now createdAt = "false")
  ∧ (expired now createdAt = "true"
     ↔ ∃ c, createdAt = Some c ∧ 16 * 86400000 ≤ now - c)
  ∧ (now ≤ later → expired now createdAt = "true" → expired later createdAt = "true").
Proof.
  assert (Hiff : ∀ n, expired n createdAt = "true"
                      ↔ ∃ c, createdAt = Some c ∧ 16 * 86400000 ≤ n - c).
  { intros n. destruct createdAt as [c|].
    - rewrite expired_true_iff. split; [eauto|]. by intros (c' & [= <-] & H).
    - split; [done|]. by intros (c' & ? & _). }
  split_and!.
  - unfold expired. destruct (diffDays now createdAt) as [d|]; [|by right].
    destruct (d >? 15); [by left|by right].
  - apply Hiff.
  - intros Hle. rewrite !Hiff. intros (c & -> & H). exists c. split; [done|lia].
Qed.

(** X10. A 200 answer of get-all-announcements lists the rows the database
    returned, one for one and in order: every row keeps each of its
    properties other than [expired], and carries an [expired] property that
    is the string ["true"] or ["false"] (a stored column of that name is
    overwritten). *)
Theorem get_all_announcements_keeps_rows {S : Type} (B : backend S) (s : S)
    (req : request) (r : response) :
  outcome_of (run B (get_all_announcements req) s) = Sent r →
  status r = 200 →
  ∃ items processed,
    (db_exec B (SelectAll announcements) s).1.(data) = JArr items
    ∧ payload r = JArr processed
    ∧ length processed = length items
    ∧ ∀ i item, items !! i = Some item →
        ∃ row, processed !! i = Some row
               ∧ (∀ k, k ≠ "expired" → get row k = get item k)
               ∧ (get row "expired" = JStr "true" ∨ get row "expired" = JStr "false").
Proof.
  intros Hout Hst.
  destruct (get_all_announcements_rows B s req r Hout Hst)
    as (items & processed & now & Hd & Hp & Hall).
  exists items, processed. split_and!; try done.
  - symmetry. by eapply Forall2_length.
  - intros i item Hi.
    destruct (Forall2_lookup_l _ _ _ _ _ Hall Hi) as (row & Hrow & c & ->).
    exists (JObj (<["expired" := JStr (expired now c)]> (own_props item))).
    split_and!; [done| |].
    + intros k Hk. unfold get. simpl. by rewrite lookup_insert_ne.
    + unfold get. simpl. rewrite lookup_insert_eq. simpl.
      unfold expired. destruct (diffDays now c) as [d|]; [|by right].
      destruct (d >? 15); [by left|by right].
Qed.

Lemma get_all_announcements_keeps_rows_witness :
  let item := JObj {[ "id" := JNum 1; "created_at" := JStr "2023-11-14T22:13:20.000Z";
                      "expired" := JStr "never" ]} in
  let w := {| rows := λ _, [item]; faults := []; clock := 1700000000000 + 20 * 86400000;
              salt := 0%nat |} in
  let req := with_body (JObj ∅) in
  ∃ r, outcome_of (run (service example_runtime) (get_all_announcements req) w) = Sent r
       ∧ status r = 200
       ∧ ∃ items processed,
           payload r = JArr processed
           ∧ length processed = length items
           ∧ items = [item]
           ∧ ∀ i it, items !! i = Some it →
               ∃ row, processed !! i = Some row
                      ∧ (∀ k, k ≠ "expired" → get row k = get it k)
                      ∧ (get row "expired" = JStr "true"
                         ∨ get row "expired" = JStr "false").
Proof.
  intros item w req.
  destruct (run (service example_runtime) (get_all_announcements req) w)
    as [[o w'] cs] eqn:E.
  vm_compute in E. injection E as <- _ _.
  eexists. split; [reflexivity|]. split; [reflexivity|].
  destruct (get_all_announcements_keeps_rows (service example_runtime) w req _
              eq_refl eq_refl) as (items & processed & Hd & Hp & Hlen & Hrows).
  exists items, processed. split_and!; [exact Hp|exact Hlen| |exact Hrows].
  by injection Hd as <-.
Defined.

(** ** Routes no request takes *)

(** X11. No request is routed to the route the content router registers as
    ['get-content/:id']: the path a router matches against starts with a
    slash and the pattern does not, so whatever the method and the URL, the
    route that serves the request is another one. *)
Theorem get_content_pattern_serves_no_request (m : http_method) (url : string)
    (g : group) (r : route) :
  dispatch m url = Some (g, r) → path r ≠ "get-content/:id".
Proof.
  intros [tl E]%dispatch_mounts_route.
  unfold route_in in E. apply find_some in E as [Hin Hm].
  destruct g; simpl in Hin;
    repeat (destruct Hin as [<-|Hin]; [try done|]); try done.
  simpl in Hm. by rewrite andb_false_r in Hm.
Qed.

Lemma get_content_pattern_serves_no_request_witness :
  ∃ r, dispatch GET "/v1/content/get-all-contents" = Some (content_group, r)
       ∧ path r = "/get-all-contents"
       ∧ path r ≠ "get-content/:id"
       ∧ dispatch GET "/v1/content/get-content/7" = None.
Proof.
  eexists. split; [reflexivity|]. split; [reflexivity|]. split; [|reflexivity].
  apply (get_content_pattern_serves_no_request GET "/v1/content/get-all-contents"
           content_group). reflexivity.
Defined.

(** ** Updates *)

(** Every call of an update route is one update of its table, filtered on
    the id of the body, with values that hold no id. *)
Lemma update_call_shape {S : Type} (B : backend S) (s : S) (t : table)
    (h : request -> prog response) (req : request) (c : dbcall) (rp : dbreply) :
  (t, h) ∈ update_routes →
  (c, rp) ∈ calls_of (run B (h req) s) →
  ∃ values, c = UpdateEqSelect t values "id" (get (body req) "id")
            ∧ truthy (get (body req) "id") = true
            ∧ own_props values !! "id" = None
            ∧ ∀ k, k ≠ "id" → k ≠ "password" → get values k = get (body req) k.
Proof.
  intros Hin. unfold update_routes in Hin.
  repeat (apply elem_of_cons in Hin as [[= -> ->]|Hin]);
    try (by apply elem_of_nil in Hin).
  all: unfold update_user, update_post, update_announcement, bcrypt_hash, reply_or,
         mbind, prog_bind, calls_of.
  all: destruct (truthy (get (body req) "id")) eqn:Hid; simpl;
         [|by intros ?%elem_of_nil].
  1: match goal with
     | |- context [if ?b then _ else _] => destruct b; simpl
     end.
  1: match goal with
     | |- context [hash_exec ?B0 ?d0 ?s0] =>
         destruct (hash_exec B0 d0 s0) as [[hh|] s1]; simpl;
         [|by intros ?%elem_of_nil]
     end.
  all: match goal with
       | |- context [db_exec ?B0 ?c0 ?s0] =>
           destruct (db_exec B0 c0 s0) as [[d [e|] n] s2]; simpl
       end.
  all: intros Hc; member_cases Hc; simplify_eq.
  all: eexists; split; [reflexivity|]; split; [done|]; split.
  all: unfold get, rest; simpl;
    rewrite ?lookup_insert_ne by done; rewrite ?lookup_delete_eq; try done.
  all: intros k Hk Hp; rewrite ?lookup_insert_ne by done;
    by rewrite lookup_delete_ne.
Qed.

Lemma perform_update_keeps_ids (t : table) (values : json) (col : string) (v : json)
    (db : table -> list json) (t' : table) :
  own_props values !! "id" = None →
  map (λ row, get row "id") ((perform (UpdateEqSelect t values col v) db).2 t')
  = map (λ row, get row "id") (db t').
Proof.
  intros Hid. simpl. unfold set_rows.
  destruct (decide (t' = t)) as [->|]; [|done].
  rewrite map_map. apply map_ext. intros row.
  destruct (matching col v row); [|done].
  unfold get. simpl. by rewrite lookup_union_r.
Qed.

Lemma updates_keep_ids (rt : runtime) {A : Type} (p : prog A) (w : world) (t : table) :
  Forall (λ cr : dbcall * dbreply,
            ∃ t0 values col v, cr.1 = UpdateEqSelect t0 values col v
                               ∧ own_props values !! "id" = None)
    (calls_of (run (service rt) p w)) →
  ids_of (state_of (run (service rt) p w)) t = ids_of w t.
Proof.
  unfold calls_of, state_of. revert w.
  induction p as [a|m|c k IH|d k IH|d h k IH|k IH|v k IH]; intros w; simpl;
    try done.
  - intros [(t0 & values & col & v & Hc & Hid) Hrest]%Forall_cons. simpl in Hc.
    rewrite (IH _ _ Hrest). subst c. unfold ids_of, service_db.
    destruct (faults w) as [|[m|] fs]; simpl; try done;
      by apply (perform_update_keeps_ids t0 values col v).
  - intros H. rewrite (IH _ _ H). unfold ids_of.
    by destruct (service_hash_same_tables rt d w) as [-> _].
  - intros H. rewrite (IH _ _ H). unfold service_compare. by destruct d, h.
  - intros H. by rewrite (IH _ _ H).
  - intros H. by rewrite (IH _ _ H).
Qed.

(** X12. The update routes (update-user, update-post, update-announcement)
    cannot change an id.  On every backend, the only call they issue is one
    update of their own table, filtered on the id of the body, whose values
    are the other fields of the body (the password possibly hashed) and hold
    no id.  On the reference service the ids of the rows of every table, in
    order, are the same after the request as before, and so is the number of
    rows. *)
Theorem update_routes_keep_ids {S : Type} (B : backend S) (s : S) (rt : runtime)
    (w : world) (t : table) (h : request -> prog response) (req : request) :
  (t, h) ∈ update_routes →
  (∀ c rp, (c, rp) ∈ calls_of (run B (h req) s) →
     ∃ values, c = UpdateEqSelect t values "id" (get (body req) "id")
               ∧ own_props values !! "id" = None
               ∧ ∀ k, k ≠ "id" → k ≠ "password" → get values k = get (body req) k)
  ∧ (∀ t', ids_of (state_of (run (service rt) (h req) w)) t' = ids_of w t'
           ∧ row_count (state_of (run (service rt) (h req) w)) t' = row_count w t').
Proof.
  intros Hin. split.
  - intros c rp Hc.
    destruct (update_call_shape B s t h req c rp Hin Hc) as (values & ? & _ & ? & ?).
    eauto.
  - intros t'.
    assert (Hids : ids_of (state_of (run (service rt) (h req) w)) t' = ids_of w t').
    { apply updates_keep_ids. apply Forall_forall. intros [c rp] Hc.
      destruct (update_call_shape (service rt) w t h req c rp Hin Hc)
        as (values & -> & _ & ? & _). simpl. eauto 10. }
    split; [done|]. unfold row_count. f_equal.
    apply (f_equal length) in Hids. unfold ids_of in Hids.
    by rewrite !length_map in Hids.
Qed.

Lemma update_routes_keep_ids_witness :
  let stored := JObj {[ "id" := JNum 1; "title" := JStr "old" ]} in
  let w := {| rows := λ _, [stored]; faults := []; clock := 0; salt := 0%nat |} in
  let req := with_body (JObj {[ "id" := JNum 1; "title" := JStr "new" ]}) in
  (content_posts, update_post) ∈ update_routes
  ∧ rows (state_of (run (service example_runtime) (update_post req) w)) content_posts
    = [JObj {[ "id" := JNum 1; "title" := JStr "new" ]}]
  ∧ ∀ t', ids_of (state_of (run (service example_runtime) (update_post req) w)) t'
          = ids_of w t'
          ∧ row_count (state_of (run (service example_runtime) (update_post req) w)) t'
            = row_count w t'.
Proof.
  intros stored w req.
  assert (Hin : (content_posts, update_post) ∈ update_routes)
    by apply list_elem_of_further, list_elem_of_here.
  split_and!; [exact Hin|by vm_compute|].
  apply (update_routes_keep_ids (service example_runtime) w example_runtime w
           content_posts update_post req Hin).
Defined.

(** ** Delete, then look up *)

Lemma filter_matching_removed (f : json -> bool) (l : list json) :
  List.filter f (List.filter (λ row, negb (f row)) l) = [].
Proof.
  induction l as [|a l IH]; simpl; [done|].
  destruct (f a) eqn:E; simpl; [done|]. by rewrite E.
Qed.

(** X13. Delete by id, then get by id, on the reference service with no
    failure pending: the delete handler of a table answers 200, and the
    get-by-id handler of the same table, asked for the same id afterwards,
    answers 404 (the lookup is [.single()] and finds no row). *)
Theorem delete_then_get_is_404 (rt : runtime) (t : table)
    (get_h del_h : request -> prog response) (req req' : request) (w : world) :
  (t, get_h, del_h) ∈ by_id_handlers →
  faults w = [] →
  params req' !! "id" = params req !! "id" →
  outcome_of (run (service rt) (del_h req) w) = Sent (send 200 JNull)
  ∧ outcome_of (run (service rt) (get_h req') (state_of (run (service rt) (del_h req) w)))
    = Sent (send 404
        (error_json "JSON object requested, multiple (or no) rows returned")).
Proof.
  intros Hin Hf Hid. unfold by_id_handlers in Hin.
  assert (Hp : param_id req' = param_id req) by (unfold param_id; by rewrite Hid).
  destruct w as [rws fs clk slt]. simpl in Hf. subst fs.
  repeat (apply elem_of_cons in Hin as [[= -> -> ->]|Hin]);
    try (by apply elem_of_nil in Hin).
  all: unfold get_user, delete_user, get_content, delete_post, get_announcement,
         delete_announcement, get_registered_email, delete_email, reply_or,
         mbind, prog_bind, outcome_of, state_of; simpl.
  all: split; [done|].
  all: unfold set_rows; rewrite decide_True by done; rewrite Hp.
  all: by rewrite filter_matching_removed.
Qed.

Lemma delete_then_get_is_404_witness :
  let stored := JObj {[ "id" := JNum 7; "email" := JStr "a@b.c" ]} in
  let w := {| rows := λ _, [stored]; faults := []; clock := 0; salt := 0%nat |} in
  let req := {| params := {[ "id" := "7" ]}; body := JObj ∅ |} in
  (users, get_user, delete_user) ∈ by_id_handlers
  ∧ faults w = []
  ∧ outcome_of (run (service example_runtime) (get_user req) w) = Sent (send 200 stored)
  ∧ rows (state_of (run (service example_runtime) (delete_user req) w)) users = []
  ∧ outcome_of (run (service example_runtime) (get_user req)
                  (state_of (run (service example_runtime) (delete_user req) w)))
    = Sent (send 404
        (error_json "JSON object requested, multiple (or no) rows returned")).
Proof.
  intros stored w req.
  assert (Hin : (users, get_user, delete_user) ∈ by_id_handlers)
    by apply list_elem_of_here.
  split_and!; [exact Hin|reflexivity|by vm_compute|by vm_compute|].
  apply (delete_then_get_is_404 example_runtime users get_user delete_user req req w
           Hin eq_refl eq_refl).
Defined.

(** ** Requests refused at the door *)

(** X14. The checks the handlers make on the body come before any call: a
    falsy password (missing, empty, null, 0, false) for create-user, a body
    that is not an array for create-users, a falsy email for register, a
    falsy email or password for login, a falsy id for update-post and
    update-announcement, ids that are not a non-empty array for delete-posts
    and ids that are not an array for delete-emails are each answered 400
    with the handler's message, with no database call and the backend left
    in its state. *)
Theorem validation_comes_before_any_call {S : Type} (B : backend S) (s : S)
    (req : request) :
  (truthy (get (body req) "password") = false →
     run B (create_user req) s
     = (Sent (send 400 (error_json "Password is required.")), s, []))
  ∧ (isArray (body req) = false →
     run B (create_users req) s
     = (Sent (send 400 (error_json "Request body must be an array of users.")), s, []))
  ∧ (truthy (get (body req) "email") = false →
     run B (register req) s
     = (Sent (send 400 (error_json "Email is required")), s, []))
  ∧ (truthy (get (body req) "email") && truthy (get (body req) "password") = false →
     run B (login req) s
     = (Sent (send 400 (error_json "Email and password are required.")), s, []))
  ∧ (truthy (get (body req) "id") = false →
     run B (update_post req) s
     = (Sent (send 400 (error_json "Content post ID is required in the request body.")),
        s, [])
     ∧ run B (update_announcement req) s
       = (Sent (send 400 (error_json "Announcement ID is required in the request body.")),
          s, []))
  ∧ (is_nonempty_array (get (body req) "ids") = false →
     run B (delete_posts req) s
     = (Sent (send 400 (error_json "Request body must include an array of ids.")), s, []))
  ∧ (isArray (get (body req) "ids") = false →
     run B (delete_emails req) s
     = (Sent (send 400 (error_json "Body must be { ids: [...] }")), s, [])).
Proof.
  split_and!.
  - intros H. unfold create_user. by rewrite H.
  - intros H. unfold create_users. by destruct (body req).
  - intros H. unfold register. by rewrite H.
  - intros H. unfold login.
    destruct (truthy (get (body req) "email")), (truthy (get (body req) "password"));
      done.
  - intros H. unfold update_post, update_announcement. by rewrite H.
  - intros H. unfold delete_posts.
    by destruct (get (body req) "ids") as [| | | | |[|x l]|].
  - intros H. unfold delete_emails. by rewrite H.
Qed.

Lemma validation_comes_before_any_call_witness :
  let req := with_body (JObj {[ "id" := JNum 0; "password" := JStr ""; "ids" := JArr [] ]}) in
  let w := {| rows := λ _, [JObj {[ "id" := JNum 0 ]}]; faults := []; clock := 0;
              salt := 0%nat |} in
  (truthy (get (body req) "password") = false
   ∧ run (service example_runtime) (create_user req) w
     = (Sent (send 400 (error_json "Password is required.")), w, []))
  ∧ (truthy (get (body req) "id") = false
     ∧ run (service example_runtime) (update_post req) w
       = (Sent (send 400 (error_json "Content post ID is required in the request body.")),
          w, []))
  ∧ (is_nonempty_array (get (body req) "ids") = false
     ∧ run (service example_runtime) (delete_posts req) w
       = (Sent (send 400 (error_json "Request body must include an array of ids.")), w, [])).
Proof.
  intros req w.
  destruct (validation_comes_before_any_call (service example_runtime) w req)
    as (H1 & _ & _ & _ & H5 & H6 & _).
  split_and!; [reflexivity|apply H1; reflexivity|reflexivity| |reflexivity
              |apply H6; reflexivity].
  apply H5. reflexivity.
Defined.

(** ** Empty arrays *)

Lemma filter_all {A : Type} (f : A -> bool) (l : list A) :
  (∀ a, f a = true) → List.filter f l = l.
Proof.
  intros H. induction l as [|a l IH]; simpl; [done|]. by rewrite H, IH.
Qed.

(** X15. An empty [ids] array: delete-posts and delete-announcements refuse
    it with 400 and issue no call, whereas delete-emails and delete-users
    take it and issue the delete with the empty list; on the reference
    service, with no failure pending, that delete removes no row and the
    answer is 200. *)
Theorem empty_ids_array {S : Type} (B : backend S) (s : S) (rt : runtime)
    (w : world) (req : request) :
  get (body req) "ids" = JArr [] →
  (run B (delete_posts req) s
   = (Sent (send 400 (error_json "Request body must include an array of ids.")), s, [])
   ∧ run B (delete_announcements req) s
     = (Sent (send 400 (error_json "Request body must include an array of ids.")), s, []))
  ∧ (delete_emails req
     = Await_db (DeleteIn registered_emails "id" (JArr [])) (reply_or 400 200)
     ∧ delete_users req = Await_db (DeleteIn users "id" (JArr [])) (reply_or 400 200))
  ∧ (faults w = [] →
     outcome_of (run (service rt) (delete_emails req) w) = Sent (send 200 JNull)
     ∧ outcome_of (run (service rt) (delete_users req) w) = Sent (send 200 JNull)
     ∧ ∀ t, rows (state_of (run (service rt) (delete_emails req) w)) t = rows w t
            ∧ rows (state_of (run (service rt) (delete_users req) w)) t = rows w t).
Proof.
  intros Hids. split_and!.
  - unfold delete_posts. by rewrite Hids.
  - unfold delete_announcements. by rewrite Hids.
  - unfold delete_emails. by rewrite Hids.
  - unfold delete_users. by rewrite Hids.
  - intros Hf. destruct w as [rws fs clk slt]. simpl in Hf. subst fs.
    unfold delete_emails, delete_users, reply_or, mbind, prog_bind, outcome_of,
      state_of. rewrite Hids. simpl.
    split_and!; try done.
    intros t. unfold set_rows.
    split; destruct (decide _) as [->|]; try done; by apply filter_all.
Qed.

Lemma empty_ids_array_witness :
  let req := with_body (JObj {[ "ids" := JArr [] ]}) in
  let w := {| rows := λ _, [JObj {[ "id" := JNum 1 ]}]; faults := []; clock := 0;
              salt := 0%nat |} in
  get (body req) "ids" = JArr []
  ∧ run (service example_runtime) (delete_posts req) w
    = (Sent (send 400 (error_json "Request body must include an array of ids.")), w, [])
  ∧ outcome_of (run (service example_runtime) (delete_emails req) w) = Sent (send 200 JNull)
  ∧ ∀ t, rows (state_of (run (service example_runtime) (delete_emails req) w)) t = rows w t
         ∧ rows (state_of (run (service example_runtime) (delete_users req) w)) t = rows w t.
Proof.
  intros req w.
  destruct (empty_ids_array (service example_runtime) w example_runtime w req eq_refl)
    as ((H1 & _) & _ & H3).
  destruct (H3 eq_refl) as (H4 & _ & H6).
  split_and!; [reflexivity|exact H1|exact H4|exact H6].
Defined.

(** X16. Bulk create-users with an empty array never trips the limit: on
    every backend, when the count succeeds with at most 10 users (a full
    table included), the handler issues the insert of no rows and answers
    201 or, if that insert fails, 400; it hashes nothing. *)
Theorem create_users_empty_array {S : Type} (B : backend S) (s : S) (req : request)
    (c : dbreply) (s1 : S) :
  body req = JArr [] →
  db_exec B (SelectCount users) s = (c, s1) →
  error c = None →
  count_or_0 c ≤ 10 →
  calls_of (run B (create_users req) s)
  = [(SelectCount users, c); (InsertSelect users [], (db_exec B (InsertSelect users []) s1).1)]
  ∧ outcome_of (run B (create_users req) s)
    = match error (db_exec B (InsertSelect users []) s1).1 with
      | Some m => Sent (send 400 (error_json m))
      | None => Sent (send 201 (data (db_exec B (InsertSelect users []) s1).1))
      end.
Proof.
  intros Hb Hc He Hle. unfold create_users. rewrite Hb.
  unfold Promise_all, reply_or, mbind, prog_bind, calls_of, outcome_of. simpl.
  rewrite Hc. simpl. rewrite He.
  change (Z.of_nat 0) with 0.
  destruct (Z.gtb_spec (count_or_0 c + 0) 10) as [H|H]; [lia|]. simpl.
  by destruct (error (db_exec B (InsertSelect users []) s1).1).
Qed.

Lemma create_users_empty_array_witness :
  let stored := JObj {[ "email" := JStr "a@b.c"; "password" := JStr "$2b$10$pw" ]} in
  let w := {| rows := λ _, replicate 10 stored; faults := []; clock := 0; salt := 0%nat |} in
  let req := with_body (JArr []) in
  body req = JArr []
  ∧ row_count w users = 10
  ∧ outcome_of (run (service example_runtime) (create_users req) w)
    = Sent (send 201 (JArr [])).
Proof.
  intros stored w req.
  split_and!; [reflexivity|reflexivity|].
  destruct (create_users_empty_array (service example_runtime) w req
              {| data := JNull; error := None; count := Some 10 |} w)
    as [_ H]; [reflexivity|reflexivity|reflexivity|by vm_compute|].
  rewrite H. reflexivity.
Defined.

(** ** Create, then list *)


